(** * GenAssist: intent detection and workflow materialization

    A shallow embedding of [src/lambda/intent-detection/index.py]:
    the entity extractor, the keyword fallback classifier, the
    Bedrock-backed classifier, the workflow template catalog, the
    workflow materializer and the request handler.

    Conventions of the embedding.
    - A Python [str] is a Rocq [string] (a sequence of 8-bit characters);
      the texts considered are ASCII texts, on which [str.lower],
      [str.title], [[A-Z]], [[a-z]] and [\d] act letter by letter as
      defined below.
    - A Python [dict] used as a map is a [gmap]; a dict used as a struct
      (the DynamoDB items, the HTTP response) is a record.  The response
      body is the object given to [json.dumps], not its text.
    - The handler starts from the request body after [json.loads]; the
      answer of the model, when it is JSON, is an object whose fields
      have the types of a classification when they are present.
    - Code that raises is embedded in an error monad over an explicit
      world state: the two DynamoDB tables, the uuid source, the clock
      and the behaviour of the model.  Logging is left out. *)

From Stdlib Require Import Ascii String.
From Stdlib Require QArith.
From Stdlib Require Import Sorted.
From stdpp Require Import gmap strings list fin_maps.

(** ** Characters and strings *)

Module Str.

Definition code (c : ascii) : nat := nat_of_ascii c.

Definition is_upper (c : ascii) : bool := (65 <=? code c) && (code c <=? 90).
Definition is_lower (c : ascii) : bool := (97 <=? code c) && (code c <=? 122).
Definition is_digit (c : ascii) : bool := (48 <=? code c) && (code c <=? 57).
Definition is_alpha (c : ascii) : bool := is_upper c || is_lower c.
Definition is_char (d c : ascii) : bool := Ascii.eqb d c.

Definition to_lower (c : ascii) : ascii :=
  if is_upper c then ascii_of_nat (code c + 32) else c.
Definition to_upper (c : ascii) : ascii :=
  if is_lower c then ascii_of_nat (code c - 32) else c.

(** [text.lower()] *)
Fixpoint lower (s : string) : string :=
  match s with
  | EmptyString => EmptyString
  | String c s' => String (to_lower c) (lower s')
  end.

(** [s.title()]: a letter is upper-cased when the character before it
    is not a letter, and lower-cased otherwise. *)
Fixpoint title_from (prev_cased : bool) (s : string) : string :=
  match s with
  | EmptyString => EmptyString
  | String c s' =>
      String (if prev_cased then to_lower c else to_upper c)
             (title_from (is_alpha c) s')
  end.
Definition title (s : string) : string := title_from false s.

(** [s.startswith(p)] *)
Fixpoint starts_with (p s : string) : bool :=
  match p, s with
  | EmptyString, _ => true
  | String a p', String b s' => Ascii.eqb a b && starts_with p' s'
  | String _ _, EmptyString => false
  end.

(** [p in s] on strings: [p] occurs in [s] as a contiguous substring. *)
Fixpoint contains (p s : string) : bool :=
  starts_with p s ||
  match s with
  | EmptyString => false
  | String _ s' => contains p s'
  end.

Fixpoint drop (n : nat) (s : string) : string :=
  match n, s with
  | S n', String _ s' => drop n' s'
  | _, _ => s
  end.

Fixpoint take (n : nat) (s : string) : string :=
  match n, s with
  | S n', String c s' => String c (take n' s')
  | _, _ => EmptyString
  end.

End Str.

(** ** A backtracking matcher for the regular expressions of the source

    The two patterns of [extract_entities] use character classes,
    concatenation, greedy [?], greedy [+] and [{n}] on a class, and one
    capturing group.  [run r s] lists, in the order in which Python's
    backtracking matcher tries them, the ways [r] matches a prefix of
    [s]; each is the text left after the match and the text of the
    group, if the group took part. *)

Module Re.

Inductive regex : Type :=
| Cls (p : ascii -> bool)
| Cat (r1 r2 : regex)
| Opt (r : regex)
| Plus (p : ascii -> bool)
| Rep (n : nat) (p : ascii -> bool)
| Grp (r : regex).

Record hit := Hit { rest : string; group1 : option string }.

(** Greedy [cls+]: the longest run first, then shorter ones. *)
Fixpoint plus_cls (p : ascii -> bool) (s : string) : list string :=
  match s with
  | String c s' => if p c then plus_cls p s' ++ [s'] else []
  | EmptyString => []
  end.

Fixpoint rep_cls (n : nat) (p : ascii -> bool) (s : string) : list string :=
  match n with
  | O => [s]
  | S n' =>
      match s with
      | String c s' => if p c then rep_cls n' p s' else []
      | EmptyString => []
      end
  end.

Definition later (g1 g2 : option string) : option string :=
  match g2 with Some _ => g2 | None => g1 end.

Fixpoint run (r : regex) (s : string) : list hit :=
  match r with
  | Cls p =>
      match s with
      | String c s' => if p c then [Hit s' None] else []
      | EmptyString => []
      end
  | Cat r1 r2 =>
      flat_map (fun h1 =>
        map (fun h2 => Hit (rest h2) (later (group1 h1) (group1 h2)))
            (run r2 (rest h1)))
        (run r1 s)
  | Opt r1 => run r1 s ++ [Hit s None]
  | Plus p => map (fun s' => Hit s' None) (plus_cls p s)
  | Rep n p => map (fun s' => Hit s' None) (rep_cls n p s)
  | Grp r1 =>
      map (fun h => Hit (rest h)
                        (Some (Str.take (String.length s - String.length (rest h)) s)))
          (run r1 s)
  end.

(** The text [re.findall] reports for a match: the group when the
    pattern has one, the whole match otherwise. *)
Definition reported (s : string) (h : hit) : string :=
  match group1 h with
  | Some g => g
  | None => Str.take (String.length s - String.length (rest h)) s
  end.

(** [re.findall(r, s)]: leftmost matches, scanning on after each one. *)
Fixpoint findall_fuel (fuel : nat) (r : regex) (s : string) : list string :=
  match fuel with
  | O => []
  | S fuel' =>
      match run r s with
      | h :: _ =>
          reported s h ::
          (if String.length (rest h) <? String.length s
           then findall_fuel fuel' r (rest h)
           else match s with
                | String _ s' => findall_fuel fuel' r s'
                | EmptyString => []
                end)
      | [] =>
          match s with
          | String _ s' => findall_fuel fuel' r s'
          | EmptyString => []
          end
      end
  end.

Definition findall (r : regex) (s : string) : list string :=
  findall_fuel (S (String.length s)) r s.

End Re.

(** ** EntityExtractor: [extract_entities] *)

(** [r'([A-Z][a-z]+ [A-Z][a-z]+)'] *)
Definition name_pattern : Re.regex :=
  Re.Grp (Re.Cat (Re.Cls Str.is_upper)
         (Re.Cat (Re.Plus Str.is_lower)
         (Re.Cat (Re.Cls (Str.is_char " "))
         (Re.Cat (Re.Cls Str.is_upper)
                 (Re.Plus Str.is_lower))))).

(** [r'\$?(\d+(?:\.\d{2})?)'] *)
Definition amount_pattern : Re.regex :=
  Re.Cat (Re.Opt (Re.Cls (Str.is_char "$")))
         (Re.Grp (Re.Cat (Re.Plus Str.is_digit)
                         (Re.Opt (Re.Cat (Re.Cls (Str.is_char "."))
                                         (Re.Rep 2 Str.is_digit))))).

Definition roles : list string :=
  ["developer"; "engineer"; "manager"; "analyst"; "designer"; "intern"].

(** One iteration of the loop [for entity_type in entity_types].
    ([words = text.split()] is computed by the source and never used.) *)
Definition extract_step (text : string) (entities : gmap string string)
    (entity_type : string) : gmap string string :=
  if String.eqb entity_type "employee_name" then
    match Re.findall name_pattern text with
    | m :: _ => <[entity_type := m]> entities
    | [] => entities
    end
  else if String.eqb entity_type "amount" then
    match Re.findall amount_pattern text with
    | m :: _ => <[entity_type := "$" +:+ m]> entities
    | [] => entities
    end
  else if String.eqb entity_type "role" then
    match find (fun role => Str.contains role (Str.lower text)) roles with
    | Some role => <[entity_type := Str.title role]> entities
    | None => entities
    end
  else entities.

Definition extract_entities (text : string) (entity_types : list string)
    : gmap string string :=
  foldl (extract_step text) ∅ entity_types.

(** ** The data of a request

    [intent_data] is the dict that travels from the classifier to the
    materializer: the value of [json.loads] on the model's answer, or the
    dict built by the fallback.  [json.loads] validates nothing, so each
    of the four keys may be absent. *)

Record intent_data := IntentData {
  intent : option string;
  entities : option (gmap string string);
  confidence : option QArith_base.Q;
  domain : option string
}.

Record workflow_step := Step { name : string; step_status : string }.

(** The dict [workflow_item] of [execute_workflow]. *)
Record workflow_item := WorkflowItem {
  wf_id : string;
  wf_title : string;
  wf_description : string;
  wf_domain : string;
  wf_intent : string;
  wf_entities : gmap string string;
  wf_status : string;
  wf_userId : string;
  wf_progress : Z;
  wf_steps : list workflow_step;
  wf_originalText : string;
  wf_isVoice : bool;
  wf_createdAt : string;
  wf_updatedAt : string
}.

(** The dict [history_item] of [execute_workflow]. *)
Record history_item := HistoryItem {
  h_id : string;
  h_workflowId : string;
  h_action : string;
  h_status : string;
  h_message : string;
  h_timestamp : string
}.

(** What [bedrock_runtime.invoke_model] and the decoding of its answer
    come to for one prompt: the call (or the reading of the response)
    raises, the generated text is not JSON ([json.JSONDecodeError]), or
    it is JSON and [json.loads] gives the object. *)
Inductive model_reply :=
| CallRaises (msg : string)
| NotJson (generated_text : string)
| Json (intent_data : intent_data).

(** A successful [put_item] call, as the store sees it. *)
Inductive put_call :=
| PutWorkflow (item : workflow_item)
| PutHistory (item : history_item).

(** The world a request runs in.  Both tables have the partition key
    [id] (cdk/stacks/genassist_stack.py) and [put_item] is an upsert, so
    a table is a map from ids to items; [writes] lists the writes done
    so far, oldest first.  A table that is out of order makes [put_item]
    raise with the given message. *)
Record world := World {
  workflows_table : gmap string workflow_item;
  workflow_history_table : gmap string history_item;
  writes : list put_call;
  workflows_fault : option string;
  history_fault : option string;
  uuid_source : nat -> string;
  uuid_count : nat;
  clock : nat -> string;
  clock_count : nat;
  invoke_model : string -> model_reply
}.

Definition set_uuid_count (n : nat) (w : world) : world :=
  World (workflows_table w) (workflow_history_table w) (writes w)
        (workflows_fault w) (history_fault w)
        (uuid_source w) n (clock w) (clock_count w) (invoke_model w).

Definition set_clock_count (n : nat) (w : world) : world :=
  World (workflows_table w) (workflow_history_table w) (writes w)
        (workflows_fault w) (history_fault w)
        (uuid_source w) (uuid_count w) (clock w) n (invoke_model w).

Definition write_workflow (item : workflow_item) (w : world) : world :=
  World (<[wf_id item := item]> (workflows_table w))
        (workflow_history_table w) (writes w ++ [PutWorkflow item])
        (workflows_fault w) (history_fault w)
        (uuid_source w) (uuid_count w) (clock w) (clock_count w)
        (invoke_model w).

Definition write_history (item : history_item) (w : world) : world :=
  World (workflows_table w)
        (<[h_id item := item]> (workflow_history_table w))
        (writes w ++ [PutHistory item])
        (workflows_fault w) (history_fault w)
        (uuid_source w) (uuid_count w) (clock w) (clock_count w)
        (invoke_model w).

Inductive exn :=
| KeyError (key : string)
| ClientError (msg : string).

(** [str(e)] *)
Definition str_exn (e : exn) : string :=
  match e with
  | KeyError key => "'" +:+ key +:+ "'"
  | ClientError msg => msg
  end.

(** ** State and exceptions *)

Inductive outcome (A : Type) :=
| Returns (a : A)
| Raises (e : exn).
Arguments Returns {A} a.
Arguments Raises {A} e.

Definition M (A : Type) : Type := world -> outcome A * world.

Definition ret {A} (a : A) : M A := fun w => (Returns a, w).
Definition raise {A} (e : exn) : M A := fun w => (Raises e, w).
Definition bind {A B} (m : M A) (k : A -> M B) : M B :=
  fun w =>
    match m w with
    | (Returns a, w') => k a w'
    | (Raises e, w') => (Raises e, w')
    end.
(** [try: m except Exception as e: h e] *)
Definition try_except {A} (m : M A) (h : exn -> M A) : M A :=
  fun w =>
    match m w with
    | (Returns a, w') => (Returns a, w')
    | (Raises e, w') => h e w'
    end.

Notation "'let*' x ':=' m 'in' k" := (bind m (fun x => k))
  (at level 10, x name, m at level 100, k at level 200).

(** [str(uuid.uuid4())] *)
Definition uuid4 : M string := fun w =>
  (Returns (uuid_source w (uuid_count w)), set_uuid_count (S (uuid_count w)) w).

(** [datetime.utcnow().isoformat()] *)
Definition utcnow : M string := fun w =>
  (Returns (clock w (clock_count w)), set_clock_count (S (clock_count w)) w).

(** [workflows_table.put_item(Item=item)] *)
Definition put_workflow (item : workflow_item) : M unit := fun w =>
  match workflows_fault w with
  | Some msg => (Raises (ClientError msg), w)
  | None => (Returns tt, write_workflow item w)
  end.

(** [workflow_history_table.put_item(Item=item)] *)
Definition put_history (item : history_item) : M unit := fun w =>
  match history_fault w with
  | Some msg => (Raises (ClientError msg), w)
  | None => (Returns tt, write_history item w)
  end.

(** [d[key]] on a key that may be absent *)
Definition getitem {A} (key : string) (field : option A) : M A :=
  match field with
  | Some a => ret a
  | None => raise (KeyError key)
  end.

(** [d.get(key, default)] *)
Definition get (d : gmap string string) (key default : string) : string :=
  match d !! key with
  | Some v => v
  | None => default
  end.

(** ** FallbackClassifier: [fallback_intent_detection] *)

(** [any(word in text_lower for word in words)] *)
Definition any_in (words : list string) (text_lower : string) : bool :=
  existsb (fun word => Str.contains word text_lower) words.

Definition fallback_intent_detection (text : string) : intent_data :=
  let text_lower := Str.lower text in
  if any_in ["onboard"; "hire"; "new employee"; "join"] text_lower then
    IntentData (Some "HR_Onboarding")
               (Some (extract_entities text ["employee_name"; "role"; "start_date"]))
               (Some (QArith_base.Qmake 8 10))
               (Some "HR")
  else if any_in ["ticket"; "issue"; "problem"; "bug"; "error"] text_lower then
    IntentData (Some "IT_Ticket")
               (Some (extract_entities text ["issue_type"; "priority"; "description"]))
               (Some (QArith_base.Qmake 8 10))
               (Some "IT")
  else if any_in ["expense"; "reimburse"; "receipt"; "payment"] text_lower then
    IntentData (Some "Finance_Expense")
               (Some (extract_entities text ["amount"; "category"; "description"]))
               (Some (QArith_base.Qmake 8 10))
               (Some "Finance")
  else if any_in ["meeting"; "schedule"; "calendar"; "appointment"] text_lower then
    IntentData (Some "Meeting_Schedule")
               (Some (extract_entities text ["date"; "time"; "attendees"; "subject"]))
               (Some (QArith_base.Qmake 8 10))
               (Some "General")
  else
    IntentData (Some "General_Query") (Some ∅) (Some (QArith_base.Qmake 5 10)) (Some "General").

(** ** IntentClassifier: [detect_intent_with_bedrock] *)

Definition detect_intent_with_bedrock (text : string) : M intent_data := fun w =>
  match invoke_model w text with
  | Json intent_data => (Returns intent_data, w)
  | NotJson _ => (Returns (fallback_intent_detection text), w)
  | CallRaises _ => (Returns (fallback_intent_detection text), w)
  end.

(** ** WorkflowTemplateCatalog *)

Definition get_workflow_title (intent : string) (entities : gmap string string)
    : string :=
  if String.eqb intent "HR_Onboarding" then
    "Employee Onboarding - " +:+ get entities "employee_name" "New Employee"
  else if String.eqb intent "IT_Ticket" then
    "IT Support Ticket - " +:+ get entities "issue_type" "Technical Issue"
  else if String.eqb intent "Finance_Expense" then
    "Expense Report - " +:+ get entities "description" "Business Expense"
  else if String.eqb intent "Meeting_Schedule" then
    "Schedule Meeting - " +:+ get entities "subject" "Meeting"
  else
    "Workflow - " +:+ intent.

Definition get_workflow_description (intent : string)
    (entities : gmap string string) : string :=
  if String.eqb intent "HR_Onboarding" then
    "Setting up accounts, scheduling orientation, and preparing workspace for "
      +:+ get entities "role" "new role" +:+ "."
  else if String.eqb intent "IT_Ticket" then
    "Investigating and resolving "
      +:+ get entities "description" "technical issue" +:+ "."
  else if String.eqb intent "Finance_Expense" then
    "Processing expense report for "
      +:+ get entities "amount" "business expense" +:+ "."
  else if String.eqb intent "Meeting_Schedule" then
    "Scheduling meeting and sending calendar invites."
  else
    "Processing workflow request.".

Definition step_templates : gmap string (list workflow_step) :=
  list_to_map [
    ("HR_Onboarding",
      [Step "Create employee record" "pending";
       Step "Setup IT accounts" "pending";
       Step "Schedule orientation" "pending";
       Step "Prepare workspace" "pending";
       Step "Send welcome email" "pending"]);
    ("IT_Ticket",
      [Step "Ticket creation" "pending";
       Step "Issue assessment" "pending";
       Step "Assign technician" "pending";
       Step "Resolve issue" "pending"]);
    ("Finance_Expense",
      [Step "Expense validation" "pending";
       Step "Manager approval" "pending";
       Step "Finance review" "pending";
       Step "Payment processing" "pending"]);
    ("Meeting_Schedule",
      [Step "Check availability" "pending";
       Step "Book meeting room" "pending";
       Step "Send invitations" "pending";
       Step "Set up equipment" "pending"])
  ].

Definition get_workflow_steps (intent : string) : list workflow_step :=
  match step_templates !! intent with
  | Some steps => steps
  | None => [Step "Process request" "pending";
             Step "Complete workflow" "pending"]
  end.

(** ** WorkflowMaterializer: [execute_workflow] *)

(** The dict [execute_workflow] returns. *)
Record started := Started { workflowId : string; message : string }.

Definition execute_workflow (intent_result : intent_data)
    (original_text : string) (is_voice : bool) : M started :=
  try_except
    (let* workflow_id := uuid4 in
     let* title_intent := getitem "intent" (intent intent_result) in
     let* title_entities := getitem "entities" (entities intent_result) in
     let* description_intent := getitem "intent" (intent intent_result) in
     let* description_entities := getitem "entities" (entities intent_result) in
     let* item_domain := getitem "domain" (domain intent_result) in
     let* item_intent := getitem "intent" (intent intent_result) in
     let* item_entities := getitem "entities" (entities intent_result) in
     let* steps_intent := getitem "intent" (intent intent_result) in
     let* created_at := utcnow in
     let* updated_at := utcnow in
     let workflow_item :=
       {| wf_id := workflow_id;
          wf_title := get_workflow_title title_intent title_entities;
          wf_description :=
            get_workflow_description description_intent description_entities;
          wf_domain := item_domain;
          wf_intent := item_intent;
          wf_entities := item_entities;
          wf_status := "in_progress";
          wf_userId := "default-user";
          wf_progress := 0;
          wf_steps := get_workflow_steps steps_intent;
          wf_originalText := original_text;
          wf_isVoice := is_voice;
          wf_createdAt := created_at;
          wf_updatedAt := updated_at |} in
     let* _ := put_workflow workflow_item in
     let* history_id := uuid4 in
     let* timestamp := utcnow in
     let history_item :=
       {| h_id := history_id;
          h_workflowId := workflow_id;
          h_action := "workflow_started";
          h_status := "info";
          h_message := "Workflow initiated: " +:+ wf_title workflow_item;
          h_timestamp := timestamp |} in
     let* _ := put_history history_item in
     ret {| workflowId := workflow_id;
            message := "Workflow " +:+ wf_title workflow_item
                       +:+ " has been initiated and is now in progress." |})
    (fun e => raise e).

(** ** WorkflowOrchestrator: [handler] *)

(** The request body after [json.loads]: [text] and [isVoice] may be
    absent. *)
Record request := Request { text : option string; isVoice : option bool }.

(** The object handed to [json.dumps] for the response body. *)
Inductive response_body :=
| Failure (error : string)
| Success (intent : intent_data) (message : started) (workflowId : string).

Record response := Response {
  statusCode : Z;
  headers : list (string * string);
  body : response_body
}.

Definition get_cors_headers : list (string * string) :=
  [("Content-Type", "application/json");
   ("Access-Control-Allow-Origin", "*");
   ("Access-Control-Allow-Methods", "GET, POST, PUT, DELETE, OPTIONS");
   ("Access-Control-Allow-Headers", "Content-Type, Authorization")].

Definition handler (event : request) : world -> response * world := fun w =>
  let run :=
    let text := default "" (text event) in
    let is_voice := default false (isVoice event) in
    if String.eqb text "" then
      ret (Response 400 get_cors_headers (Failure "Text input is required"))
    else
      let* intent_result := detect_intent_with_bedrock text in
      let* workflow_result := execute_workflow intent_result text is_voice in
      ret (Response 200 get_cors_headers
             (Success intent_result workflow_result (workflowId workflow_result))) in
  match run w with
  | (Returns r, w') => (r, w')
  | (Raises e, w') =>
      (Response 500 get_cors_headers
         (Failure ("Internal server error: " +:+ str_exn e)), w')
  end.

(** * Vocabulary of the properties *)

(** [occurs p s]: [p] is a contiguous part of [s], wherever it starts
    and ends. *)
Definition occurs (p s : string) : Prop := exists a b, s = a +:+ p +:+ b.

(** The keyword sets of §4.2 in their priority order. *)
Definition hr_keywords : list string := ["onboard"; "hire"; "new employee"; "join"].
Definition it_keywords : list string := ["ticket"; "issue"; "problem"; "bug"; "error"].
Definition finance_keywords : list string := ["expense"; "reimburse"; "receipt"; "payment"].
Definition meeting_keywords : list string := ["meeting"; "schedule"; "calendar"; "appointment"].

Definition priority_order : list (string * list string) :=
  [("HR_Onboarding", hr_keywords);
   ("IT_Ticket", it_keywords);
   ("Finance_Expense", finance_keywords);
   ("Meeting_Schedule", meeting_keywords)].

(** What it takes for [extract_entities] to report [v] under the key
    [k]: [k] is one of the three types with a heuristic, and the
    heuristic finds [v] in the text. *)
Definition heuristic_finds (text k v : string) : Prop :=
  (k = "employee_name" /\
   exists more, Re.findall name_pattern text = v :: more)
  \/ (k = "amount" /\
   exists m more, Re.findall amount_pattern text = m :: more /\ v = "$" +:+ m)
  \/ (k = "role" /\
   exists role,
     find (fun role => Str.contains role (Str.lower text)) roles = Some role
     /\ v = Str.title role).

Definition no_heuristic : list string :=
  ["start_date"; "issue_type"; "priority"; "description"; "category";
   "date"; "time"; "attendees"; "subject"].

(** The item [execute_workflow] builds in world [w] from the fields of
    the classification, and the history entry that goes with it. *)
Definition new_workflow (w : world) (i : string) (e : gmap string string)
    (d original_text : string) (is_voice : bool) : workflow_item :=
  {| wf_id := uuid_source w (uuid_count w);
     wf_title := get_workflow_title i e;
     wf_description := get_workflow_description i e;
     wf_domain := d;
     wf_intent := i;
     wf_entities := e;
     wf_status := "in_progress";
     wf_userId := "default-user";
     wf_progress := 0;
     wf_steps := get_workflow_steps i;
     wf_originalText := original_text;
     wf_isVoice := is_voice;
     wf_createdAt := clock w (clock_count w);
     wf_updatedAt := clock w (S (clock_count w)) |}.

Definition new_history (w : world) (item : workflow_item) : history_item :=
  {| h_id := uuid_source w (S (uuid_count w));
     h_workflowId := wf_id item;
     h_action := "workflow_started";
     h_status := "info";
     h_message := "Workflow initiated: " +:+ wf_title item;
     h_timestamp := clock w (S (S (clock_count w))) |}.

Definition new_started (item : workflow_item) : started :=
  {| workflowId := wf_id item;
     message := "Workflow " +:+ wf_title item
                +:+ " has been initiated and is now in progress." |}.

(** The first key [execute_workflow] looks up and does not find. *)
Definition first_missing (d : intent_data) : option string :=
  match intent d, entities d, domain d with
  | None, _, _ => Some "intent"
  | Some _, None, _ => Some "entities"
  | Some _, Some _, None => Some "domain"
  | Some _, Some _, Some _ => None
  end.

(** A world for examples: empty tables in working order, ids id-0,
    id-1, ..., times t-0, t-1, ..., and a model that answers every
    prompt with [reply]. *)
Definition digit (n : nat) : string := String (ascii_of_nat (48 + n)) "".

Definition demo_world (reply : model_reply) : world :=
  {| workflows_table := ∅;
     workflow_history_table := ∅;
     writes := [];
     workflows_fault := None;
     history_fault := None;
     uuid_source := fun n => "id-" +:+ digit n;
     uuid_count := 0;
     clock := fun n => "t-" +:+ digit n;
     clock_count := 0;
     invoke_model := fun _ => reply |}.

Definition set_confidence (c : option QArith_base.Q) (d : intent_data)
    : intent_data :=
  IntentData (intent d) (entities d) c (domain d).

Definition set_invoke_model (f : string -> model_reply) (w : world) : world :=
  World (workflows_table w) (workflow_history_table w) (writes w)
        (workflows_fault w) (history_fault w)
        (uuid_source w) (uuid_count w) (clock w) (clock_count w) f.

Definition bespoke_intents : list string :=
  ["HR_Onboarding"; "IT_Ticket"; "Finance_Expense"; "Meeting_Schedule"].

Definition generic_steps : list workflow_step :=
  [Step "Process request" "pending"; Step "Complete workflow" "pending"].

Definition bad_request : response :=
  Response 400 get_cors_headers (Failure "Text input is required").


(** * Vocabulary of the further properties *)

(** ** Texts and patterns *)

(** Every character of [s] satisfies [p]; some character does. *)
Fixpoint all_chars (p : ascii -> bool) (s : string) : bool :=
  match s with
  | EmptyString => true
  | String c s' => p c && all_chars p s'
  end.

Fixpoint any_char (p : ascii -> bool) (s : string) : bool :=
  match s with
  | EmptyString => false
  | String c s' => p c || any_char p s'
  end.

(** [matches r a]: the text [a], taken whole, is in the language of
    [r]. *)
Fixpoint matches (r : Re.regex) (a : string) : Prop :=
  match r with
  | Re.Cls p => exists c, a = String c "" /\ p c = true
  | Re.Cat r1 r2 => exists a1 a2, a = a1 +:+ a2 /\ matches r1 a1 /\ matches r2 a2
  | Re.Opt r1 => a = "" \/ matches r1 a
  | Re.Plus p => a <> "" /\ all_chars p a = true
  | Re.Rep n p => String.length a = n /\ all_chars p a = true
  | Re.Grp r1 => matches r1 a
  end.

(** A capitalized word: an upper-case letter and then one or more
    lower-case letters. *)
Definition capitalized (word : string) : Prop :=
  exists c tail,
    word = String c tail /\ Str.is_upper c = true
    /\ tail <> "" /\ all_chars Str.is_lower tail = true.

(** A number as the amount pattern takes it: digits, and then possibly
    a point and exactly two digits. *)
Definition decimal_number (m : string) : Prop :=
  exists whole cents,
    m = whole +:+ cents
    /\ whole <> "" /\ all_chars Str.is_digit whole = true
    /\ (cents = ""
        \/ exists d1 d2, cents = String "." (String d1 (String d2 ""))
             /\ Str.is_digit d1 = true /\ Str.is_digit d2 = true).

(** What the heuristic for the entity type [k] finds in [text], if the
    type has a heuristic and it finds something. *)
Definition heuristic_value (text k : string) : option string :=
  if String.eqb k "employee_name" then
    hd_error (Re.findall name_pattern text)
  else if String.eqb k "amount" then
    option_map (fun m => "$" +:+ m) (hd_error (Re.findall amount_pattern text))
  else if String.eqb k "role" then
    option_map Str.title
      (find (fun role => Str.contains role (Str.lower text)) roles)
  else None.

(** The values the role heuristic can give. *)
Definition role_titles : list string :=
  ["Developer"; "Engineer"; "Manager"; "Analyst"; "Designer"; "Intern"].

(** ** Fallback classification *)

(** Intent, domain and confidence of the fallback classification, read
    from the lower-cased text. *)
Definition fallback_label (text_lower : string)
    : string * string * QArith_base.Q :=
  if any_in hr_keywords text_lower then
    ("HR_Onboarding", "HR", QArith_base.Qmake 8 10)
  else if any_in it_keywords text_lower then
    ("IT_Ticket", "IT", QArith_base.Qmake 8 10)
  else if any_in finance_keywords text_lower then
    ("Finance_Expense", "Finance", QArith_base.Qmake 8 10)
  else if any_in meeting_keywords text_lower then
    ("Meeting_Schedule", "General", QArith_base.Qmake 8 10)
  else ("General_Query", "General", QArith_base.Qmake 5 10).

(** The entity types the fallback classifier asks for, per intent. *)
Definition fallback_requests (intent : string) : list string :=
  if String.eqb intent "HR_Onboarding" then ["employee_name"; "role"; "start_date"]
  else if String.eqb intent "IT_Ticket" then ["issue_type"; "priority"; "description"]
  else if String.eqb intent "Finance_Expense" then ["amount"; "category"; "description"]
  else if String.eqb intent "Meeting_Schedule" then ["date"; "time"; "attendees"; "subject"]
  else [].

(** The intents named in the prompt that the fallback never gives. *)
Definition model_only_intents : list string :=
  ["HR_Offboarding"; "IT_Password_Reset"; "Finance_Approval"].

(** ** Requests *)

(** The classification the handler works with in world [w] for the
    text [t]: the answer of the model when it is JSON, the fallback
    classification otherwise. *)
Definition classification (w : world) (t : string) : intent_data :=
  match invoke_model w t with
  | Json d => d
  | NotJson _ => fallback_intent_detection t
  | CallRaises _ => fallback_intent_detection t
  end.

(** The ids the next call of [execute_workflow] draws in world [w]. *)
Definition next_workflow_id (w : world) : string := uuid_source w (uuid_count w).
Definition next_history_id (w : world) : string := uuid_source w (S (uuid_count w)).

(** The world after a call of [execute_workflow] that wrote both
    items. *)
Definition world_after (w : world) (item : workflow_item) : world :=
  write_history (new_history w item)
    (set_clock_count (S (S (S (clock_count w))))
       (set_uuid_count (S (S (uuid_count w)))
          (write_workflow item
             (set_clock_count (S (S (clock_count w)))
                (set_uuid_count (S (uuid_count w)) w))))).

(** The world [w] as a later request meets it: the tables, the writes
    done and the sources of ids and times are as [w] has them, while
    the model and the two tables may behave in another way than
    before. *)
Definition later_request (model : string -> model_reply)
    (workflows_fault history_fault : option string) (w : world) : world :=
  World (workflows_table w) (workflow_history_table w) (writes w)
        workflows_fault history_fault
        (uuid_source w) (uuid_count w) (clock w) (clock_count w) model.

(** * The workflow executor: [src/lambda/workflow-executor/index.py]

    The read side of the two tables.  Its environment holds the tables,
    what [get_item] and [scan] answer, the two dates [get_stats]
    compares with, and what [int] makes of a string.  A scan answers
    with a page of items in an order of the store's choosing; how the
    page relates to the table is said where a property needs it. *)

Module Executor.

Inductive exn :=
| StoreError (msg : string)
| ValueError (literal : string).

(** What [table.scan(...)] answers: it raises, or it gives the items of
    a page. *)
Inductive scan_reply (A : Type) :=
| ScanRaises (msg : string)
| ScanItems (page : list A).
Arguments ScanRaises {A} msg.
Arguments ScanItems {A} page.

Record env := Env {
  workflows : gmap string workflow_item;
  get_item_fault : string -> option string;
  workflows_scan : scan_reply workflow_item;
  history_scan : scan_reply history_item;
  today_start : string;
  tomorrow_start : string;
  int_of : string -> option Z
}.

(** The object handed to [json.dumps] for the response body.
    [ErrorWith prefix e] stands for [{'error': f'{prefix}{str(e)}'}]. *)
Inductive body :=
| Error (error : string)
| ErrorWith (prefix : string) (e : exn)
| Workflows (items : list workflow_item)
| Workflow (item : workflow_item)
| Activity (items : list history_item)
| Stats (completed inProgress voiceCommands totalToday : nat).

Record response := Response {
  statusCode : Z;
  headers : list (string * string);
  body_of : body
}.

Definition get_cors_headers : list (string * string) :=
  [("Content-Type", "application/json");
   ("Access-Control-Allow-Origin", "*");
   ("Access-Control-Allow-Methods", "GET, POST, PUT, DELETE, OPTIONS");
   ("Access-Control-Allow-Headers", "Content-Type, Authorization")].

(** [l.sort(key=key, reverse=True)] on string keys: the stable sort
    into descending order.  An item is put in front of the first item
    whose key is not greater than its own, so items with equal keys
    keep the order they had. *)
Fixpoint insert_desc {A} (key : A -> string) (x : A) (l : list A) : list A :=
  match l with
  | [] => [x]
  | y :: l' =>
      if String.leb (key y) (key x) then x :: y :: l'
      else y :: insert_desc key x l'
  end.

Definition sort_desc {A} (key : A -> string) (l : list A) : list A :=
  foldr (insert_desc key) [] l.

(** [l[:limit]] *)
Definition slice_to {A} (limit : Z) (l : list A) : list A :=
  if (limit <? 0)%Z
  then take (Z.to_nat (Z.max 0 (Z.of_nat (length l) + limit))) l
  else take (Z.to_nat limit) l.

(** [path.split('/')[-1]] *)
Fixpoint last_segment (path : string) : string :=
  match path with
  | EmptyString => EmptyString
  | String c rest =>
      if any_char (Str.is_char "/") rest then last_segment rest
      else if Str.is_char "/" c then rest
      else String c rest
  end.

(** The filter of [get_active_workflows]:
    [#status IN (:pending, :in_progress)]. *)
Definition is_active (item : workflow_item) : bool :=
  String.eqb (wf_status item) "pending"
  || String.eqb (wf_status item) "in_progress".

Definition get_active_workflows (e : env) : response :=
  match workflows_scan e with
  | ScanItems page =>
      let workflows := filter (fun item => is_active item = true) page in
      let workflows := sort_desc wf_createdAt workflows in
      Response 200 get_cors_headers (Workflows workflows)
  | ScanRaises msg =>
      Response 500 get_cors_headers
        (ErrorWith "Error retrieving workflows: " (StoreError msg))
  end.

Definition get_workflow_by_id (e : env) (workflow_id : string) : response :=
  match get_item_fault e workflow_id with
  | Some msg =>
      Response 500 get_cors_headers
        (ErrorWith "Error retrieving workflow: " (StoreError msg))
  | None =>
      match workflows e !! workflow_id with
      | None => Response 404 get_cors_headers (Error "Workflow not found")
      | Some item => Response 200 get_cors_headers (Workflow item)
      end
  end.

Definition get_recent_activity (e : env) (limit : Z) : response :=
  match history_scan e with
  | ScanItems items =>
      let items := sort_desc h_timestamp items in
      let items := slice_to limit items in
      Response 200 get_cors_headers (Activity items)
  | ScanRaises msg =>
      Response 500 get_cors_headers
        (ErrorWith "Error retrieving activity: " (StoreError msg))
  end.

(** The test of [get_stats] for a workflow of today. *)
Definition created_today (e : env) (workflow : workflow_item) : bool :=
  let created_at := wf_createdAt workflow in
  negb (String.eqb created_at "")
  && String.leb (today_start e) created_at
  && String.ltb created_at (tomorrow_start e).

Definition get_stats (e : env) : response :=
  match workflows_scan e with
  | ScanItems all_workflows =>
      let today_workflows :=
        filter (fun workflow => created_today e workflow = true) all_workflows in
      Response 200 get_cors_headers
        (Stats
           (length (filter (fun w => wf_status w = "completed") today_workflows))
           (length (filter (fun w => wf_status w = "in_progress") today_workflows))
           (length (filter (fun w => wf_isVoice w = true) today_workflows))
           (length today_workflows))
  | ScanRaises msg =>
      Response 500 get_cors_headers
        (ErrorWith "Error retrieving stats: " (StoreError msg))
  end.

(** The event of the handler: each of the three keys may be absent. *)
Record event := Event {
  httpMethod : option string;
  path : option string;
  queryStringParameters : option (gmap string string)
}.

Definition handler (e : env) (ev : event) : response :=
  let http_method := default "GET" (httpMethod ev) in
  let path := default "" (path ev) in
  let query_params := default ∅ (queryStringParameters ev) in
  if Str.contains "/workflows/active" path && String.eqb http_method "GET" then
    get_active_workflows e
  else if Str.contains "/workflows/" path && String.eqb http_method "GET" then
    let workflow_id := last_segment path in
    get_workflow_by_id e workflow_id
  else if Str.contains "/activity/recent" path && String.eqb http_method "GET" then
    match query_params !! "limit" with
    | None => get_recent_activity e 10
    | Some literal =>
        match int_of e literal with
        | Some limit => get_recent_activity e limit
        | None =>
            Response 500 get_cors_headers
              (ErrorWith "Internal server error: " (ValueError literal))
        end
    end
  else if Str.contains "/stats" path && String.eqb http_method "GET" then
    get_stats e
  else
    Response 404 get_cors_headers (Error "Endpoint not found").

End Executor.

(** ** Vocabulary for the executor *)

(** [newest_first key l]: the keys never increase along [l]. *)
Definition newest_first {A} (key : A -> string) (l : list A) : Prop :=
  StronglySorted (fun a b => String.leb (key b) (key a) = true) l.

(** History entries and an environment for examples. *)
Definition demo_entry (id timestamp : string) : history_item :=
  HistoryItem id "wf" "workflow_started" "info" "started" timestamp.

Definition demo_env (page : list workflow_item) (activity : list history_item)
    : Executor.env :=
  {| Executor.workflows := list_to_map (map (fun item => (wf_id item, item)) page);
     Executor.get_item_fault := fun _ => None;
     Executor.workflows_scan := Executor.ScanItems page;
     Executor.history_scan := Executor.ScanItems activity;
     Executor.today_start := "2024-05-01";
     Executor.tomorrow_start := "2024-05-02";
     Executor.int_of := fun literal =>
       if String.eqb literal "2" then Some 2%Z
       else if String.eqb literal "-1" then Some (-1)%Z
       else None |}.

Definition demo_item (id status created_at : string) (voice : bool)
    : workflow_item :=
  WorkflowItem id "title" "description" "General" "General_Query" ∅ status
    "default-user" 0 [] "text" voice created_at created_at.

(** The request [GET path] with no query. *)
Definition GET (path : string) : Executor.event :=
  Executor.Event (Some "GET") (Some path) None.

(** * Speech to text: [src/lambda/transcribe/index.py]

    The calls to S3 and to Transcribe are answered by the environment;
    the functions give their result together with the calls they made,
    in order.  A call that raises is still in the list. *)

Module Transcribe.

Inductive call :=
| PutObject (bucket key body content_type : string)
| StartJob (job_name media_uri media_format output_bucket output_key : string)
| GetJob (job_name : string)
| Sleep (seconds : Z)
| GetObject (bucket key : string)
| DeleteObject (bucket key : string).

(** What [get_transcription_job] answers: it raises, or it gives the
    status of the job, the uri of the transcript when the reply has a
    Transcript, and the failure reason when it has one. *)
Inductive job_reply :=
| JobRaises (msg : string)
| Job (status : string) (transcript_uri : option string)
      (failure_reason : option string).

Record env := Env {
  AUDIO_BUCKET : string;
  b64decode : string -> string + string;
  uuid_source : nat -> string;
  put_object_fault : option string;
  start_job_fault : option string;
  get_job : nat -> job_reply;
  read_transcript : string -> string -> option string;
  delete_object_fault : string -> string -> option string
}.

Inductive body :=
| Failure (error : string)
| Transcript (transcript jobName : string).

Record response := Response {
  statusCode : Z;
  headers : list (string * string);
  body_of : body
}.

Definition get_cors_headers : list (string * string) :=
  [("Content-Type", "application/json");
   ("Access-Control-Allow-Origin", "*");
   ("Access-Control-Allow-Methods", "GET, POST, PUT, DELETE, OPTIONS");
   ("Access-Control-Allow-Headers", "Content-Type, Authorization")].

(** [s.replace(old, '')] for a non-empty [old]: every occurrence of
    [old], found from the left and without overlap, is dropped.
    [skip] counts the characters of an occurrence still to drop. *)
Fixpoint remove_from (skip : nat) (old s : string) : string :=
  match s with
  | EmptyString => EmptyString
  | String c s' =>
      match skip with
      | S k => remove_from k old s'
      | O =>
          if Str.starts_with old s
          then remove_from (String.length old - 1) old s'
          else String c (remove_from 0 old s')
      end
  end.

Definition remove_all (old s : string) : string := remove_from 0 old s.

(** [s.split('/', 1)]: the text before the first slash and, when there
    is a slash, the text after it. *)
Fixpoint split_once (s : string) : string * option string :=
  match s with
  | EmptyString => (EmptyString, None)
  | String c s' =>
      if Str.is_char "/" c then (EmptyString, Some s')
      else let '(first, second) := split_once s' in (String c first, second)
  end.

(** [get_transcript_from_s3]: every exception ends in the result [""].
    [read_transcript] stands for [get_object], the reading of the body,
    [json.loads] and the lookup of the transcript text; it is [None]
    when any of these raises. *)
Definition get_transcript_from_s3 (e : env) (transcript_uri : string)
    : string * list call :=
  let uri_parts := split_once (remove_all "s3://" transcript_uri) in
  let bucket := fst uri_parts in
  match snd uri_parts with
  | None => ("", [])
  | Some key =>
      match read_transcript e bucket key with
      | None => ("", [GetObject bucket key])
      | Some transcript_text =>
          match delete_object_fault e bucket key with
          | Some _ => ("", [GetObject bucket key; DeleteObject bucket key])
          | None =>
              (transcript_text, [GetObject bucket key; DeleteObject bucket key])
          end
      end
  end.

Definition internal_error (msg : string) : response :=
  Response 500 get_cors_headers (Failure ("Internal server error: " +:+ msg)).

(** The loop [while attempt < max_attempts]; [remaining] is
    [max_attempts - attempt]. *)
Fixpoint poll (e : env) (job_name audio_key : string) (remaining attempt : nat)
    : response * list call :=
  match remaining with
  | O => (Response 408 get_cors_headers (Failure "Transcription timeout"), [])
  | S remaining' =>
      match get_job e attempt with
      | JobRaises msg => (internal_error msg, [GetJob job_name])
      | Job status transcript_uri failure_reason =>
          if String.eqb status "COMPLETED" then
            match transcript_uri with
            | None => (internal_error "'Transcript'", [GetJob job_name])
            | Some output_uri =>
                let '(transcript_text, calls) :=
                  get_transcript_from_s3 e output_uri in
                match delete_object_fault e (AUDIO_BUCKET e) audio_key with
                | Some msg =>
                    (internal_error msg,
                     GetJob job_name :: calls
                       ++ [DeleteObject (AUDIO_BUCKET e) audio_key])
                | None =>
                    (Response 200 get_cors_headers
                       (Transcript transcript_text job_name),
                     GetJob job_name :: calls
                       ++ [DeleteObject (AUDIO_BUCKET e) audio_key])
                end
            end
          else if String.eqb status "FAILED" then
            (Response 500 get_cors_headers
               (Failure ("Transcription failed: "
                         +:+ default "Unknown error" failure_reason)),
             [GetJob job_name])
          else
            let '(r, calls) := poll e job_name audio_key remaining' (S attempt) in
            (r, GetJob job_name :: Sleep 2 :: calls)
      end
  end.

(** The request body after [json.loads]. *)
Record request := Request { audioData : option string; format : option string }.

Definition handler (e : env) (event : request) : response * list call :=
  let audio_data := default "" (audioData event) in
  let audio_format := default "wav" (format event) in
  if String.eqb audio_data "" then
    (Response 400 get_cors_headers (Failure "Audio data is required"), [])
  else
    match b64decode e audio_data with
    | inl msg =>
        (Response 400 get_cors_headers
           (Failure ("Invalid audio data: " +:+ msg)), [])
    | inr audio_bytes =>
        let audio_key :=
          "transcribe-input/" +:+ uuid_source e 0 +:+ "." +:+ audio_format in
        let put := PutObject (AUDIO_BUCKET e) audio_key audio_bytes
                     ("audio/" +:+ audio_format) in
        match put_object_fault e with
        | Some msg => (internal_error msg, [put])
        | None =>
            let job_name := "genassist-transcribe-" +:+ uuid_source e 1 in
            let job_uri := "s3://" +:+ AUDIO_BUCKET e +:+ "/" +:+ audio_key in
            let start := StartJob job_name job_uri audio_format (AUDIO_BUCKET e)
                           ("transcribe-output/" +:+ job_name +:+ ".json") in
            match start_job_fault e with
            | Some msg => (internal_error msg, [put; start])
            | None =>
                let '(r, calls) := poll e job_name audio_key 30 0 in
                (r, put :: start :: calls)
            end
        end
    end.

End Transcribe.

(** ** Vocabulary for the transcribe handler *)

(** A reply that makes the loop go on: a status other than COMPLETED
    and FAILED. *)
Definition still_running (reply : Transcribe.job_reply) : bool :=
  match reply with
  | Transcribe.Job status _ _ =>
      negb (String.eqb status "COMPLETED") && negb (String.eqb status "FAILED")
  | Transcribe.JobRaises _ => false
  end.

Definition is_get_job (c : Transcribe.call) : bool :=
  match c with Transcribe.GetJob _ => true | _ => false end.

Definition is_sleep (c : Transcribe.call) : bool :=
  match c with Transcribe.Sleep _ => true | _ => false end.

Definition is_delete (c : Transcribe.call) : bool :=
  match c with Transcribe.DeleteObject _ _ => true | _ => false end.

Definition count_calls (p : Transcribe.call -> bool)
    (calls : list Transcribe.call) : nat :=
  length (filter (fun c => p c = true) calls).

(** [k] rounds of the loop that found the job still running. *)
Fixpoint waiting (job_name : string) (k : nat) : list Transcribe.call :=
  match k with
  | O => []
  | S k' => Transcribe.GetJob job_name :: Transcribe.Sleep 2 :: waiting job_name k'
  end.

(** Key of the uploaded audio and name of the job, as the handler
    forms them. *)
Definition audio_key_of (e : Transcribe.env) (event : Transcribe.request)
    : string :=
  "transcribe-input/" +:+ Transcribe.uuid_source e 0 +:+ "."
    +:+ default "wav" (Transcribe.format event).

Definition job_name_of (e : Transcribe.env) : string :=
  "genassist-transcribe-" +:+ Transcribe.uuid_source e 1.

(** The request gets as far as the polling loop. *)
Definition job_started (e : Transcribe.env) (event : Transcribe.request)
    : Prop :=
  default "" (Transcribe.audioData event) <> ""
  /\ (exists audio_bytes,
        Transcribe.b64decode e (default "" (Transcribe.audioData event))
        = inr audio_bytes)
  /\ Transcribe.put_object_fault e = None
  /\ Transcribe.start_job_fault e = None.

(** An environment for examples: the job is reported IN_PROGRESS
    [rounds] times and then as the reply [final]. *)
Definition demo_transcribe (rounds : nat) (final : Transcribe.job_reply)
    : Transcribe.env :=
  {| Transcribe.AUDIO_BUCKET := "audio";
     Transcribe.b64decode := fun s => inr s;
     Transcribe.uuid_source := fun n => "u" +:+ digit n;
     Transcribe.put_object_fault := None;
     Transcribe.start_job_fault := None;
     Transcribe.get_job := fun n =>
       if n <? rounds then Transcribe.Job "IN_PROGRESS" None None else final;
     Transcribe.read_transcript := fun bucket key =>
       if String.eqb key "out/t.json" then Some "hello world" else None;
     Transcribe.delete_object_fault := fun _ _ => None |}.

(** The answers with which the handler gives a job up: the timeout and
    the failed job. *)
Definition gave_up (r : Transcribe.response) : Prop :=
  Transcribe.statusCode r = 408%Z
  \/ exists reason,
       Transcribe.body_of r
       = Transcribe.Failure ("Transcription failed: " +:+ reason).

(** * Text to speech: [src/lambda/polly/index.py]

    As for the transcribe handler, the calls to Polly and S3 are
    answered by the environment and listed in the order they are made. *)

Module Polly.

Inductive call :=
| DescribeVoices (language_code : string)
| SynthesizeSpeech (text output_format voice_id engine : string)
| PutObject (bucket key body content_type : string)
| PresignedUrl (bucket key : string) (expires_in : Z).

Record env := Env {
  AUDIO_BUCKET : string;
  describe_voices : string + list string;
  synthesize_speech : string -> string -> string -> string + string;
  uuid4 : string;
  put_object_fault : option string;
  generate_presigned_url : string -> string -> string + string;
  b64encode : string -> string
}.

Inductive body :=
| Failure (error : string)
| Speech (audioUrl audioData format voiceId text : string).

Record response := Response {
  statusCode : Z;
  headers : list (string * string);
  body_of : body
}.

Definition get_cors_headers : list (string * string) :=
  [("Content-Type", "application/json");
   ("Access-Control-Allow-Origin", "*");
   ("Access-Control-Allow-Methods", "GET, POST, PUT, DELETE, OPTIONS");
   ("Access-Control-Allow-Headers", "Content-Type, Authorization")].

Definition get_available_voices (e : env) : list string * list call :=
  match describe_voices e with
  | inr voices => (voices, [DescribeVoices "en-US"])
  | inl _ =>
      (["Joanna"; "Matthew"; "Ivy"; "Justin"; "Kendra"; "Kimberly"; "Salli"; "Joey"],
       [DescribeVoices "en-US"])
  end.

Definition internal_error (msg : string) : response :=
  Response 500 get_cors_headers (Failure ("Internal server error: " +:+ msg)).

(** The request body after [json.loads]. *)
Record request := Request {
  text : option string;
  voiceId : option string;
  outputFormat : option string
}.

Definition handler (e : env) (event : request) : response * list call :=
  let text := default "" (text event) in
  let voice_id := default "Joanna" (voiceId event) in
  let output_format := default "mp3" (outputFormat event) in
  if String.eqb text "" then
    (Response 400 get_cors_headers (Failure "Text is required"), [])
  else
    let '(valid_voices, calls) := get_available_voices e in
    let voice_id :=
      if existsb (String.eqb voice_id) valid_voices then voice_id else "Joanna" in
    let synthesize := SynthesizeSpeech text output_format voice_id "neural" in
    match synthesize_speech e text output_format voice_id with
    | inl msg => (internal_error msg, calls ++ [synthesize])
    | inr audio_data =>
        let audio_key := "polly-output/" +:+ uuid4 e +:+ "." +:+ output_format in
        let put := PutObject (AUDIO_BUCKET e) audio_key audio_data
                     ("audio/" +:+ output_format) in
        match put_object_fault e with
        | Some msg => (internal_error msg, calls ++ [synthesize; put])
        | None =>
            let presign := PresignedUrl (AUDIO_BUCKET e) audio_key 3600 in
            match generate_presigned_url e (AUDIO_BUCKET e) audio_key with
            | inl msg => (internal_error msg, calls ++ [synthesize; put; presign])
            | inr audio_url =>
                (Response 200 get_cors_headers
                   (Speech audio_url (b64encode e audio_data) output_format
                      voice_id text),
                 calls ++ [synthesize; put; presign])
            end
        end
    end.

End Polly.

(** ** Vocabulary for the polly handler *)

(** The voices Polly is taken to have when it cannot be asked. *)
Definition common_voices : list string :=
  ["Joanna"; "Matthew"; "Ivy"; "Justin"; "Kendra"; "Kimberly"; "Salli"; "Joey"].

(** The voices a request can choose from in environment [e]. *)
Definition available_voices (e : Polly.env) : list string :=
  match Polly.describe_voices e with
  | inr voices => voices
  | inl _ => common_voices
  end.

(** The voice the handler speaks with. *)
Definition chosen_voice (e : Polly.env) (event : Polly.request) : string :=
  match Polly.voiceId event with
  | None => "Joanna"
  | Some requested =>
      if existsb (String.eqb requested) (available_voices e)
      then requested else "Joanna"
  end.

Definition demo_polly (voices : string + list string) : Polly.env :=
  {| Polly.AUDIO_BUCKET := "audio";
     Polly.describe_voices := voices;
     Polly.synthesize_speech := fun text _ voice => inr (voice +:+ ":" +:+ text);
     Polly.uuid4 := "u7";
     Polly.put_object_fault := None;
     Polly.generate_presigned_url := fun bucket key =>
       inr ("https://" +:+ bucket +:+ "/" +:+ key);
     Polly.b64encode := fun s => s |}.

(** * Properties *)

(** ** Substrings and lower-casing *)

Lemma app_nil (b : string) : "" +:+ b = b.
Proof. reflexivity. Qed.

Lemma app_cons (x : ascii) (a b : string) : String x a +:+ b = String x (a +:+ b).
Proof. reflexivity. Qed.

Lemma append_assoc (a b c : string) : (a +:+ b) +:+ c = a +:+ b +:+ c.
Proof.
  induction a as [|x a IH]; [reflexivity|].
  rewrite !app_cons. now f_equal.
Qed.

Lemma starts_with_prefix (p s : string) :
  Str.starts_with p s = true <-> exists b, s = p +:+ b.
Proof.
  revert s. induction p as [|x p IH]; intros s.
  - split; [intros _; now exists s | reflexivity].
  - destruct s as [|y s]; cbn [Str.starts_with].
    + split; [discriminate | intros [b Hb]; discriminate].
    + rewrite andb_true_iff, Ascii.eqb_eq, IH. split.
      * intros [-> [b ->]]. now exists b.
      * intros [b Hb]. rewrite app_cons in Hb. injection Hb as -> ->.
        split; [reflexivity | now exists b].
Qed.

Lemma contains_occurs (p s : string) : Str.contains p s = true <-> occurs p s.
Proof.
  unfold occurs. induction s as [|y s IH]; cbn [Str.contains].
  - rewrite orb_false_r, starts_with_prefix. split.
    + intros [b Hb]. now exists EmptyString, b.
    + intros [[|x a] [b Hb]]; [now exists b | discriminate].
  - rewrite orb_true_iff, starts_with_prefix, IH. split.
    + intros [[b Hb] | [a [b ->]]].
      * now exists EmptyString, b.
      * now exists (String y a), b.
    + intros [[|x a] [b Hb]].
      * left. now exists b.
      * right. rewrite app_cons in Hb. injection Hb as -> ->. now exists a, b.
Qed.

Lemma occurs_trans (p q s : string) : occurs p q -> occurs q s -> occurs p s.
Proof.
  intros [a [b ->]] [c [d ->]]. exists (c +:+ a), (b +:+ d).
  now rewrite !append_assoc.
Qed.

Lemma lower_app (a b : string) :
  Str.lower (a +:+ b) = Str.lower a +:+ Str.lower b.
Proof.
  induction a as [|x a IH]; [reflexivity|].
  rewrite !app_cons. cbn [Str.lower]. rewrite app_cons. now f_equal.
Qed.

Lemma occurs_lower (p s : string) :
  occurs p s -> occurs (Str.lower p) (Str.lower s).
Proof.
  intros [a [b ->]]. exists (Str.lower a), (Str.lower b).
  now rewrite !lower_app.
Qed.

(** A keyword that occurs in a word that occurs in the text is found in
    the lower-cased text. *)
Lemma keyword_inside (kw word text : string) :
  Str.contains kw (Str.lower word) = true ->
  Str.contains word text = true ->
  Str.contains kw (Str.lower text) = true.
Proof.
  rewrite !contains_occurs. intros Hkw Hword.
  eapply occurs_trans; [exact Hkw | now apply occurs_lower].
Qed.

(** ** The matcher consumes its input: [findall] has fuel enough *)

Lemma plus_cls_shorter (p : ascii -> bool) (s s' : string) :
  In s' (Re.plus_cls p s) -> String.length s' < String.length s.
Proof.
  revert s'. induction s as [|c s IH]; intros s'; cbn [Re.plus_cls].
  - intros [].
  - destruct (p c); [|intros []].
    rewrite in_app_iff. intros [H | [<- | []]]; cbn [String.length].
    + apply IH in H. lia.
    + lia.
Qed.

Lemma rep_cls_shorter (n : nat) (p : ascii -> bool) (s s' : string) :
  In s' (Re.rep_cls n p s) -> String.length s' <= String.length s.
Proof.
  revert s. induction n as [|n IH]; intros s; cbn [Re.rep_cls].
  - intros [<- | []]. lia.
  - destruct s as [|c s]; [intros []|].
    destruct (p c); [|intros []].
    intros H. apply IH in H. cbn [String.length]. lia.
Qed.

Lemma run_shorter (r : Re.regex) :
  forall (s : string) (h : Re.hit),
    In h (Re.run r s) -> String.length (Re.rest h) <= String.length s.
Proof.
  induction r as [p | r1 IH1 r2 IH2 | r1 IH1 | p | n p | r1 IH1];
    intros s h; cbn [Re.run].
  - destruct s as [|c s]; [intros []|].
    destruct (p c); [|intros []].
    intros [<- | []]. cbn [Re.rest String.length]. lia.
  - rewrite in_flat_map. intros (h1 & H1 & H).
    apply in_map_iff in H as (h2 & <- & H2).
    apply IH1 in H1. apply IH2 in H2. cbn [Re.rest]. lia.
  - rewrite in_app_iff. intros [H | [<- | []]].
    + now apply IH1.
    + cbn [Re.rest]. lia.
  - rewrite in_map_iff. intros (s' & <- & H).
    apply plus_cls_shorter in H. cbn [Re.rest]. lia.
  - rewrite in_map_iff. intros (s' & <- & H).
    apply rep_cls_shorter in H. cbn [Re.rest]. lia.
  - rewrite in_map_iff. intros (h1 & <- & H).
    apply IH1 in H. cbn [Re.rest]. exact H.
Qed.

(** More fuel than [findall] gives itself changes nothing. *)
Lemma findall_fuel_enough (r : Re.regex) :
  forall (n m : nat) (s : string),
    String.length s < n -> String.length s < m ->
    Re.findall_fuel n r s = Re.findall_fuel m r s.
Proof.
  induction n as [|n IH]; intros m s Hn Hm; [lia|].
  destruct m as [|m]; [lia|].
  cbn [Re.findall_fuel].
  destruct (Re.run r s) as [|h hs] eqn:Hrun.
  - destruct s as [|c s]; [reflexivity|].
    cbn [String.length] in Hn, Hm. apply IH; lia.
  - f_equal.
    destruct (String.length (Re.rest h) <? String.length s) eqn:Hlt.
    + apply Nat.ltb_lt in Hlt. apply IH; lia.
    + destruct s as [|c s]; [reflexivity|].
      cbn [String.length] in Hn, Hm. apply IH; lia.
Qed.

Lemma findall_any_fuel (r : Re.regex) (s : string) (n : nat) :
  String.length s < n -> Re.findall_fuel n r s = Re.findall r s.
Proof. intros H. unfold Re.findall. apply findall_fuel_enough; lia. Qed.

(** ** FallbackClassifier *)

Lemma any_in_occurs (words : list string) (s : string) :
  any_in words s = true <-> exists word, In word words /\ occurs word s.
Proof.
  unfold any_in. rewrite existsb_exists.
  split; intros [word [Hin H]]; exists word; (split; [exact Hin|]);
    now apply contains_occurs.
Qed.

Lemma fallback_intent_cases (text : string) :
  intent (fallback_intent_detection text) =
  Some (if any_in hr_keywords (Str.lower text) then "HR_Onboarding"
        else if any_in it_keywords (Str.lower text) then "IT_Ticket"
        else if any_in finance_keywords (Str.lower text) then "Finance_Expense"
        else if any_in meeting_keywords (Str.lower text) then "Meeting_Schedule"
        else "General_Query").
Proof.
  unfold fallback_intent_detection.
  change ["onboard"; "hire"; "new employee"; "join"] with hr_keywords.
  change ["ticket"; "issue"; "problem"; "bug"; "error"] with it_keywords.
  change ["expense"; "reimburse"; "receipt"; "payment"] with finance_keywords.
  change ["meeting"; "schedule"; "calendar"; "appointment"] with meeting_keywords.
  destruct (any_in hr_keywords _); [reflexivity|].
  destruct (any_in it_keywords _); [reflexivity|].
  destruct (any_in finance_keywords _); [reflexivity|].
  destruct (any_in meeting_keywords _); reflexivity.
Qed.

(** C3. The fallback classifier tries the keyword sets in the order
    HR_Onboarding, IT_Ticket, Finance_Expense, Meeting_Schedule: a text
    whose lower-cased form has a keyword of some set and none of the
    sets before it gets the intent of that set, whatever later sets it
    also matches.  "reimburse my ticket issue" matches the IT and the
    Finance set and is classified IT_Ticket. *)
Theorem fallback_keyword_priority :
  (forall text before label keywords after,
     priority_order = before ++ (label, keywords) :: after ->
     any_in keywords (Str.lower text) = true ->
     (forall entry, In entry before -> any_in entry.2 (Str.lower text) = false) ->
     intent (fallback_intent_detection text) = Some label)
  /\ any_in it_keywords (Str.lower "reimburse my ticket issue") = true
  /\ any_in finance_keywords (Str.lower "reimburse my ticket issue") = true
  /\ intent (fallback_intent_detection "reimburse my ticket issue") = Some "IT_Ticket".
Proof.
  split; [| repeat split; vm_compute; reflexivity].
  intros text before label keywords after Hsplit Hhit Hmiss.
  rewrite fallback_intent_cases.
  unfold priority_order in Hsplit.
  repeat (destruct before as [|? before]; cbn [app] in Hsplit;
    [ injection Hsplit as <- <- _; now rewrite Hhit
    | injection Hsplit as <- Hsplit;
      match goal with
      | |- context [if any_in ?kws (Str.lower text) then ?lbl else _] =>
          let H := fresh in
          assert (any_in kws (Str.lower text) = false) as H
            by (apply (Hmiss (lbl, kws)); cbn [In];
                repeat first [left; reflexivity | right]);
          rewrite H; clear H
      end ]).
  destruct before; discriminate.
Qed.

Lemma fallback_keyword_priority_witness :
  intent (fallback_intent_detection "reimburse my ticket issue") = Some "IT_Ticket".
Proof.
  apply (proj1 fallback_keyword_priority "reimburse my ticket issue"
           [("HR_Onboarding", hr_keywords)] "IT_Ticket" it_keywords
           [("Finance_Expense", finance_keywords);
            ("Meeting_Schedule", meeting_keywords)]).
  - reflexivity.
  - vm_compute. reflexivity.
  - intros entry [<- | []]. vm_compute. reflexivity.
Defined.

Lemma any_in_keyword (kw : string) (words : list string) (s : string) :
  In kw words -> Str.contains kw s = true -> any_in words s = true.
Proof.
  intros Hin H. unfold any_in. apply existsb_exists. now exists kw.
Qed.

(** C10. Keywords are looked for as substrings of the lower-cased text,
    with no regard for word boundaries: a keyword surrounded by any
    characters triggers its branch.  So "joint" and "rejoined" (which
    contain "join") give HR_Onboarding, and "errors" and "terrorist"
    (which contain "error") give IT_Ticket when no HR keyword occurs. *)
Theorem fallback_matches_inside_words :
  (forall text kw a b,
     In kw hr_keywords -> Str.lower text = a +:+ kw +:+ b ->
     intent (fallback_intent_detection text) = Some "HR_Onboarding")
  /\ (forall text kw a b,
     In kw it_keywords -> Str.lower text = a +:+ kw +:+ b ->
     any_in hr_keywords (Str.lower text) = false ->
     intent (fallback_intent_detection text) = Some "IT_Ticket")
  /\ (forall text,
     Str.contains "joint" text = true \/ Str.contains "rejoined" text = true ->
     intent (fallback_intent_detection text) = Some "HR_Onboarding")
  /\ (forall text,
     Str.contains "errors" text = true \/ Str.contains "terrorist" text = true ->
     any_in hr_keywords (Str.lower text) = false ->
     intent (fallback_intent_detection text) = Some "IT_Ticket").
Proof.
  assert (Hhr : forall text kw, In kw hr_keywords ->
            Str.contains kw (Str.lower text) = true ->
            intent (fallback_intent_detection text) = Some "HR_Onboarding").
  { intros text kw Hin H. rewrite fallback_intent_cases.
    now rewrite (any_in_keyword kw _ _ Hin H). }
  assert (Hit : forall text kw, In kw it_keywords ->
            Str.contains kw (Str.lower text) = true ->
            any_in hr_keywords (Str.lower text) = false ->
            intent (fallback_intent_detection text) = Some "IT_Ticket").
  { intros text kw Hin H Hno. rewrite fallback_intent_cases, Hno.
    now rewrite (any_in_keyword kw _ _ Hin H). }
  repeat split.
  - intros text kw a b Hin Heq. apply (Hhr text kw Hin).
    apply contains_occurs. now exists a, b.
  - intros text kw a b Hin Heq. apply (Hit text kw Hin).
    apply contains_occurs. now exists a, b.
  - intros text [H | H]; apply (Hhr text "join").
    + cbn; tauto.
    + now apply (keyword_inside "join" "joint").
    + cbn; tauto.
    + now apply (keyword_inside "join" "rejoined").
  - intros text [H | H] Hno; apply (Hit text "error"); try exact Hno.
    + cbn; tauto.
    + now apply (keyword_inside "error" "errors").
    + cbn; tauto.
    + now apply (keyword_inside "error" "terrorist").
Qed.

Lemma fallback_matches_inside_words_witness :
  intent (fallback_intent_detection "We rejoined the joint venture")
    = Some "HR_Onboarding"
  /\ intent (fallback_intent_detection "Too many errors in the log")
    = Some "IT_Ticket"
  /\ intent (fallback_intent_detection "proJOINing") = Some "HR_Onboarding"
  /\ intent (fallback_intent_detection "debugger") = Some "IT_Ticket".
Proof.
  destruct fallback_matches_inside_words as [Hhr [Hit [Hjoin Herror]]].
  split; [|split; [|split]].
  - apply Hjoin. left. vm_compute. reflexivity.
  - apply Herror.
    + left. vm_compute. reflexivity.
    + vm_compute. reflexivity.
  - apply (Hhr "proJOINing" "join" "pro" "ing").
    + cbn. tauto.
    + vm_compute. reflexivity.
  - apply (Hit "debugger" "bug" "de" "ger").
    + cbn. tauto.
    + vm_compute. reflexivity.
    + vm_compute. reflexivity.
Defined.

(** ** EntityExtractor *)

(** C1 (as the code has it). On "Pay John Smith $250.00 for travel" the
    first occurrence of two consecutive capitalized words is "Pay John",
    at the very start of the text ("Pay" is a capitalized word too), and
    the first decimal number is 250.00.  The extractor returns
    employee_name "Pay John" and amount "$250.00". *)
Theorem extract_pay_john_smith :
  hd_error (Re.run name_pattern "Pay John Smith $250.00 for travel")
  = Some (Re.Hit " Smith $250.00 for travel" (Some "Pay John"))
  /\ Re.findall name_pattern "Pay John Smith $250.00 for travel" = ["Pay John"]
  /\ Re.findall amount_pattern "Pay John Smith $250.00 for travel" = ["250.00"]
  /\ extract_entities "Pay John Smith $250.00 for travel"
                      ["employee_name"; "amount"]
     = {[ "employee_name" := "Pay John"; "amount" := "$250.00" ]}.
Proof. repeat split; vm_compute; reflexivity. Qed.

(** C1 as the specification states it does not hold: the result is not
    employee_name "John Smith", amount "$250.00". *)
Lemma extract_pay_john_smith_not_john_smith :
  extract_entities "Pay John Smith $250.00 for travel"
                   ["employee_name"; "amount"]
  <> {[ "employee_name" := "John Smith"; "amount" := "$250.00" ]}.
Proof.
  intros H. apply (f_equal (fun m => m !! "employee_name")) in H.
  vm_compute in H. discriminate H.
Qed.

Lemma extract_step_lookup (text : string) (acc : gmap string string)
    (t k v : string) :
  extract_step text acc t !! k = Some v ->
  acc !! k = Some v \/ (k = t /\ heuristic_finds text k v).
Proof.
  unfold extract_step, heuristic_finds.
  destruct (String.eqb t "employee_name") eqn:E1.
  { apply String.eqb_eq in E1. subst t.
    destruct (Re.findall name_pattern text) as [|m more] eqn:F; [tauto|].
    destruct (decide (k = "employee_name")) as [->|Hne].
    - rewrite lookup_insert_eq. intros [= ->]. right. split; [reflexivity|].
      left. split; [reflexivity | now exists more].
    - rewrite lookup_insert_ne by congruence. tauto. }
  destruct (String.eqb t "amount") eqn:E2.
  { apply String.eqb_eq in E2. subst t.
    destruct (Re.findall amount_pattern text) as [|m more] eqn:F; [tauto|].
    destruct (decide (k = "amount")) as [->|Hne].
    - rewrite lookup_insert_eq. intros [= <-]. right. split; [reflexivity|].
      right. left. split; [reflexivity | now exists m, more].
    - rewrite lookup_insert_ne by congruence. tauto. }
  destruct (String.eqb t "role") eqn:E3.
  { apply String.eqb_eq in E3. subst t.
    destruct (find _ roles) as [role|] eqn:F; [|tauto].
    destruct (decide (k = "role")) as [->|Hne].
    - rewrite lookup_insert_eq. intros [= <-]. right. split; [reflexivity|].
      right. right. split; [reflexivity | now exists role].
    - rewrite lookup_insert_ne by congruence. tauto. }
  tauto.
Qed.

Lemma extract_fold_lookup (text : string) (types : list string) :
  forall (acc : gmap string string) (k v : string),
    foldl (extract_step text) acc types !! k = Some v ->
    acc !! k = Some v \/ (In k types /\ heuristic_finds text k v).
Proof.
  induction types as [|t types IH]; intros acc k v H; cbn [foldl] in H.
  - now left.
  - apply IH in H as [H | [Hin Hk]].
    + apply extract_step_lookup in H as [H | [-> Hk]].
      * now left.
      * right. split; [now left | exact Hk].
    + right. split; [now right | exact Hk].
Qed.

Lemma extract_entities_lookup (text : string) (types : list string)
    (k v : string) :
  extract_entities text types !! k = Some v ->
  In k types /\ heuristic_finds text k v.
Proof.
  intros H. apply extract_fold_lookup in H as [H | H]; [|exact H].
  rewrite lookup_empty in H. discriminate H.
Qed.

(** C9. An entry of the extractor's result is always for a requested
    type among employee_name, amount and role whose heuristic matched
    the text.  The other types the fallback classifier asks for are
    never in the result, and the IT_Ticket and Meeting_Schedule branches
    return an entities mapping that is present and empty. *)
Theorem extract_only_matching_heuristics :
  (forall text types k v,
     extract_entities text types !! k = Some v ->
     In k types /\ heuristic_finds text k v)
  /\ (forall text types k,
     In k no_heuristic -> extract_entities text types !! k = None)
  /\ (forall text,
     intent (fallback_intent_detection text) = Some "IT_Ticket"
     \/ intent (fallback_intent_detection text) = Some "Meeting_Schedule" ->
     entities (fallback_intent_detection text) = Some ∅).
Proof.
  split; [exact extract_entities_lookup | split].
  - intros text types k Hk.
    destruct (extract_entities text types !! k) as [v|] eqn:E; [|reflexivity].
    apply extract_entities_lookup in E as [_ [[-> _] | [[-> _] | [-> _]]]];
      cbn in Hk; exfalso; intuition discriminate.
  - intros text. unfold fallback_intent_detection.
    destruct (any_in _ _); cbn [intent entities].
    { intros [H | H]; discriminate H. }
    destruct (any_in _ _); cbn [intent entities]; [reflexivity|].
    destruct (any_in _ _); cbn [intent entities].
    { intros [H | H]; discriminate H. }
    destruct (any_in _ _); cbn [intent entities]; [reflexivity|].
    intros [H | H]; discriminate H.
Qed.

Lemma extract_only_matching_heuristics_witness :
  (In "amount" ["amount"; "category"; "description"]
   /\ heuristic_finds "Reimburse a receipt of 40 for the description"
        "amount" "$40")
  /\ extract_entities "Schedule a meeting with John Smith at 10"
       ["date"; "time"; "attendees"; "subject"] !! "time" = None
  /\ entities (fallback_intent_detection
       "Open a ticket: John Smith the manager lost $250.00") = Some ∅.
Proof.
  destruct extract_only_matching_heuristics as [Honly [Hnever Hempty]].
  split; [|split].
  - apply (Honly "Reimburse a receipt of 40 for the description"
             ["amount"; "category"; "description"] "amount" "$40").
    vm_compute. reflexivity.
  - apply Hnever. cbn. tauto.
  - apply Hempty. left. vm_compute. reflexivity.
Defined.

(** ** WorkflowMaterializer *)

Lemma execute_workflow_missing (d : intent_data) (text : string) (v : bool)
    (w : world) (key : string) :
  first_missing d = Some key ->
  execute_workflow d text v w =
  (Raises (KeyError key), set_uuid_count (S (uuid_count w)) w).
Proof.
  destruct d as [[i|] [e|] c [dm|]]; cbn; intros [= <-]; reflexivity.
Qed.

Lemma execute_workflow_present (d : intent_data) (text : string) (v : bool)
    (w : world) (i : string) (e : gmap string string) (dm : string) :
  intent d = Some i -> entities d = Some e -> domain d = Some dm ->
  execute_workflow d text v w =
  let item := new_workflow w i e dm text v in
  let w1 := set_clock_count (S (S (clock_count w)))
              (set_uuid_count (S (uuid_count w)) w) in
  match workflows_fault w with
  | Some msg => (Raises (ClientError msg), w1)
  | None =>
      let w2 := set_clock_count (S (S (S (clock_count w))))
                  (set_uuid_count (S (S (uuid_count w)))
                     (write_workflow item w1)) in
      match history_fault w with
      | Some msg => (Raises (ClientError msg), w2)
      | None => (Returns (new_started item),
                 write_history (new_history w item) w2)
      end
  end.
Proof.
  destruct d as [i' e' c dm']; cbn [intent entities domain].
  intros -> -> ->. destruct w as [wt ht ws wf hf us uc ck cc im].
  unfold execute_workflow, try_except, bind, getitem, ret, raise, uuid4,
    utcnow, put_workflow, put_history.
  cbn. destruct wf as [msg|]; cbn; [reflexivity|].
  destruct hf as [msg|]; cbn; reflexivity.
Qed.

Lemma execute_workflow_returns (d : intent_data) (text : string) (v : bool)
    (w w' : world) (res : started) :
  execute_workflow d text v w = (Returns res, w') ->
  exists i e dm,
    intent d = Some i /\ entities d = Some e /\ domain d = Some dm
    /\ workflows_fault w = None /\ history_fault w = None
    /\ res = new_started (new_workflow w i e dm text v)
    /\ workflows_table w'
       = <[wf_id (new_workflow w i e dm text v) := new_workflow w i e dm text v]>
           (workflows_table w)
    /\ workflow_history_table w'
       = <[h_id (new_history w (new_workflow w i e dm text v))
             := new_history w (new_workflow w i e dm text v)]>
           (workflow_history_table w)
    /\ writes w'
       = writes w ++ [PutWorkflow (new_workflow w i e dm text v);
                      PutHistory (new_history w (new_workflow w i e dm text v))].
Proof.
  destruct (first_missing d) as [key|] eqn:Hm.
  { rewrite (execute_workflow_missing _ _ _ _ _ Hm). discriminate. }
  destruct d as [[i|] [e|] c [dm|]]; try discriminate Hm.
  rewrite (execute_workflow_present (IntentData (Some i) (Some e) c (Some dm))
             text v w i e dm eq_refl eq_refl eq_refl).
  cbv zeta.
  destruct (workflows_fault w) eqn:Hwf; [discriminate|].
  destruct (history_fault w) eqn:Hhf; [discriminate|].
  intros [= <- <-]. exists i, e, dm.
  repeat split; try reflexivity.
  cbn. now rewrite <- app_assoc.
Qed.

(** C6. A call of [execute_workflow] that returns has written exactly
    one workflow item, with status in_progress and progress 0, and then
    exactly one history item, with action workflow_started and status
    info, whose workflowId is the id of that workflow item. *)
Theorem materialize_linked_write (d : intent_data) (text : string) (v : bool)
    (w w' : world) (res : started) :
  execute_workflow d text v w = (Returns res, w') ->
  exists record entry,
    writes w' = writes w ++ [PutWorkflow record; PutHistory entry]
    /\ workflows_table w' = <[wf_id record := record]> (workflows_table w)
    /\ workflow_history_table w'
       = <[h_id entry := entry]> (workflow_history_table w)
    /\ wf_status record = "in_progress"
    /\ wf_progress record = 0%Z
    /\ h_action entry = "workflow_started"
    /\ h_status entry = "info"
    /\ h_workflowId entry = wf_id record
    /\ workflowId res = wf_id record.
Proof.
  intros H.
  apply execute_workflow_returns in H
    as (i & e & dm & _ & _ & _ & _ & _ & -> & Hwt & Hht & Hws).
  exists (new_workflow w i e dm text v),
         (new_history w (new_workflow w i e dm text v)).
  rewrite Hwt, Hht, Hws. repeat split.
Qed.

Lemma materialize_linked_write_witness :
  exists record entry,
    writes (execute_workflow (fallback_intent_detection "Please hire John Smith")
              "Please hire John Smith" true (demo_world (CallRaises "down"))).2
    = [] ++ [PutWorkflow record; PutHistory entry]
    /\ wf_id record = "id-0"
    /\ h_workflowId entry = "id-0".
Proof.
  destruct (materialize_linked_write
              (fallback_intent_detection "Please hire John Smith")
              "Please hire John Smith" true (demo_world (CallRaises "down"))
              (execute_workflow (fallback_intent_detection "Please hire John Smith")
                 "Please hire John Smith" true (demo_world (CallRaises "down"))).2
              (Started "id-0"
                 "Workflow Employee Onboarding - John Smith has been initiated and is now in progress."))
    as (record & entry & Hws & _ & _ & _ & _ & _ & _ & Hlink & Hid).
  - vm_compute. reflexivity.
  - exists record, entry. cbn [workflowId] in Hid.
    split; [exact Hws | split; [now rewrite <- Hid | now rewrite Hlink, <- Hid]].
Defined.

(** ** Confidence *)

Lemma execute_workflow_confidence (d : intent_data)
    (c c' : option QArith_base.Q) (text : string) (v : bool) (w : world) :
  execute_workflow (set_confidence c d) text v w
  = execute_workflow (set_confidence c' d) text v w.
Proof. destruct d as [[i|] [e|] c0 [dm|]]; reflexivity. Qed.

(** C7. The confidence of a classification decides nothing.  Two
    classifications that differ only in confidence (present with any
    value, or absent) make [execute_workflow] behave identically: same
    outcome, same workflow item, same history item, same world.  In the
    handler, two model answers that differ only in confidence lead to
    the same status code, the same tables and the same writes. *)
Theorem confidence_is_advisory :
  (forall d c c' text v w,
     execute_workflow (set_confidence c d) text v w
     = execute_workflow (set_confidence c' d) text v w)
  /\ (forall d c c' event w,
     let r1 := handler event
                 (set_invoke_model (fun _ => Json (set_confidence c d)) w) in
     let r2 := handler event
                 (set_invoke_model (fun _ => Json (set_confidence c' d)) w) in
     statusCode r1.1 = statusCode r2.1
     /\ workflows_table r1.2 = workflows_table r2.2
     /\ workflow_history_table r1.2 = workflow_history_table r2.2
     /\ writes r1.2 = writes r2.2).
Proof.
  split; [exact execute_workflow_confidence|].
  intros d c c' [[t|] iv] w; cbv zeta; unfold handler;
    cbn [text isVoice default]; [|repeat split].
  destruct t as [|a t]; [repeat split|].
  change (String.eqb (String a t) "") with false. cbv iota.
  unfold bind, detect_intent_with_bedrock, set_invoke_model.
  cbn [invoke_model].
  destruct d as [[i|] [e|] c0 [dm|]], w as [wt ht ws [m1|] [m2|] us uc ck cc im];
    repeat split.
Qed.

(** ** WorkflowTemplateCatalog *)

Lemma eqb_other (i k : string) : i <> k -> String.eqb i k = false.
Proof. intros H. now apply String.eqb_neq. Qed.

Lemma generic_catalog (i : string) (e : gmap string string) :
  ~ In i bespoke_intents ->
  get_workflow_title i e = "Workflow - " +:+ i
  /\ get_workflow_description i e = "Processing workflow request."
  /\ get_workflow_steps i = generic_steps.
Proof.
  intros Hout.
  assert (H1 : i <> "HR_Onboarding") by (intros ->; apply Hout; cbn; tauto).
  assert (H2 : i <> "IT_Ticket") by (intros ->; apply Hout; cbn; tauto).
  assert (H3 : i <> "Finance_Expense") by (intros ->; apply Hout; cbn; tauto).
  assert (H4 : i <> "Meeting_Schedule") by (intros ->; apply Hout; cbn; tauto).
  unfold get_workflow_title, get_workflow_description, get_workflow_steps.
  rewrite !(eqb_other _ _ H1), !(eqb_other _ _ H2), !(eqb_other _ _ H3),
    !(eqb_other _ _ H4).
  split; [reflexivity | split; [reflexivity|]].
  unfold step_templates, list_to_map. cbn [foldr fst snd].
  rewrite !lookup_insert_ne by congruence. now rewrite lookup_empty.
Qed.

(** C8. For an intent outside HR_Onboarding, IT_Ticket, Finance_Expense
    and Meeting_Schedule the catalog gives the title "Workflow - <intent>",
    the description "Processing workflow request." and the two generic
    steps, whatever the entities; and the workflow item that
    [execute_workflow] writes for such an intent carries exactly these. *)
Theorem generic_template_fallback (i : string) :
  ~ In i bespoke_intents ->
  (forall e,
     get_workflow_title i e = "Workflow - " +:+ i
     /\ get_workflow_description i e = "Processing workflow request."
     /\ get_workflow_steps i
        = [Step "Process request" "pending"; Step "Complete workflow" "pending"])
  /\ (forall d text v w res w',
     intent d = Some i ->
     execute_workflow d text v w = (Returns res, w') ->
     exists record,
       workflows_table w' !! workflowId res = Some record
       /\ wf_intent record = i
       /\ wf_title record = "Workflow - " +:+ i
       /\ wf_description record = "Processing workflow request."
       /\ wf_steps record
          = [Step "Process request" "pending"; Step "Complete workflow" "pending"]).
Proof.
  intros Hout. split; [intros e; now apply generic_catalog|].
  intros d text v w res w' Hi H.
  apply execute_workflow_returns in H
    as (i' & e & dm & Hi' & _ & _ & _ & _ & -> & Hwt & _ & _).
  assert (i' = i) as -> by congruence.
  exists (new_workflow w i e dm text v). rewrite Hwt.
  destruct (generic_catalog i e Hout) as (Ht & Hd & Hs).
  cbn [new_started workflowId]. rewrite lookup_insert_eq.
  cbn [new_workflow wf_intent wf_title wf_description wf_steps].
  now rewrite Ht, Hd, Hs.
Qed.

Lemma generic_template_fallback_witness :
  ~ In "General_Query" bespoke_intents
  /\ get_workflow_title "General_Query" ∅ = "Workflow - General_Query"
  /\ exists record,
       workflows_table
         (execute_workflow (fallback_intent_detection "hello there")
            "hello there" false (demo_world (NotJson "hm"))).2 !! "id-0"
       = Some record
       /\ wf_title record = "Workflow - General_Query".
Proof.
  assert (Hout : ~ In "General_Query" bespoke_intents).
  { cbn. intros [H | [H | [H | [H | []]]]]; discriminate H. }
  destruct (generic_template_fallback "General_Query" Hout) as [Hcat Hrec].
  split; [exact Hout | split].
  - apply (Hcat ∅).
  - destruct (Hrec (fallback_intent_detection "hello there") "hello there" false
                (demo_world (NotJson "hm"))
                (Started "id-0"
                   "Workflow Workflow - General_Query has been initiated and is now in progress.")
                (execute_workflow (fallback_intent_detection "hello there")
                   "hello there" false (demo_world (NotJson "hm"))).2)
      as (record & Hlk & _ & Ht & _).
    + vm_compute. reflexivity.
    + vm_compute. reflexivity.
    + exists record. split; [exact Hlk | exact Ht].
Defined.

(** ** WorkflowOrchestrator *)

(** C5. A request whose text is missing or empty is answered with the
    bad-request outcome (status 400, success false, error "Text input is
    required") and leaves the world as it was: no workflow item and no
    history item is written. *)
Theorem empty_text_is_rejected (v : option bool) (w : world) :
  handler (Request None v) w = (bad_request, w)
  /\ handler (Request (Some "") v) w = (bad_request, w)
  /\ forall t, t = None \/ t = Some "" ->
       writes (handler (Request t v) w).2 = writes w
       /\ workflows_table (handler (Request t v) w).2 = workflows_table w
       /\ workflow_history_table (handler (Request t v) w).2
          = workflow_history_table w.
Proof.
  split; [reflexivity | split; [reflexivity|]].
  intros t [-> | ->]; repeat split.
Qed.

Lemma empty_text_is_rejected_witness :
  writes (handler (Request (Some "") (Some true))
            (demo_world (Json (fallback_intent_detection "hire")))).2 = []
  /\ statusCode (handler (Request None None)
            (demo_world (Json (fallback_intent_detection "hire")))).1 = 400%Z.
Proof.
  split.
  - apply (proj2 (proj2 (empty_text_is_rejected (Some true)
             (demo_world (Json (fallback_intent_detection "hire")))))
             (Some "")).
    right. reflexivity.
  - now rewrite (proj1 (empty_text_is_rejected None
             (demo_world (Json (fallback_intent_detection "hire"))))).
Defined.

Lemma fallback_complete (text : string) :
  first_missing (fallback_intent_detection text) = None.
Proof.
  unfold fallback_intent_detection.
  repeat (destruct (any_in _ _); [reflexivity|]). reflexivity.
Qed.

Lemma handler_nonempty (t : string) (iv : option bool) (w : world) :
  t <> "" ->
  handler (Request (Some t) iv) w =
  match invoke_model w t with
  | Json d =>
      match execute_workflow d t (default false iv) w with
      | (Returns res, w') =>
          (Response 200 get_cors_headers (Success d res (workflowId res)), w')
      | (Raises e, w') =>
          (Response 500 get_cors_headers
             (Failure ("Internal server error: " +:+ str_exn e)), w')
      end
  | _ =>
      match execute_workflow (fallback_intent_detection t) t
              (default false iv) w with
      | (Returns res, w') =>
          (Response 200 get_cors_headers
             (Success (fallback_intent_detection t) res (workflowId res)), w')
      | (Raises e, w') =>
          (Response 500 get_cors_headers
             (Failure ("Internal server error: " +:+ str_exn e)), w')
      end
  end.
Proof.
  intros Hne. unfold handler. cbv zeta. cbn [text isVoice default]. unfold id.
  rewrite (eqb_other _ _ Hne).
  unfold bind, detect_intent_with_bedrock, ret.
  destruct (invoke_model w t);
    match goal with
    | |- context [execute_workflow ?d ?t ?v ?w] =>
        destruct (execute_workflow d t v w) as [[res|e] w']; reflexivity
    end.
Qed.

(** C4. When the call to the model raises, the classifier returns
    normally, and what it returns is the fallback classification of the
    text.  The request then goes on with that classification: it is
    answered with status 200 when the two writes go through, and an
    internal-error answer can only report a failed write, never the
    failure of the model. *)
Theorem model_failure_falls_back (text : string) (w : world) (msg : string) :
  invoke_model w text = CallRaises msg ->
  detect_intent_with_bedrock text w
  = (Returns (fallback_intent_detection text), w)
  /\ (forall iv,
     text <> "" -> workflows_fault w = None -> history_fault w = None ->
     exists res w',
       handler (Request (Some text) iv) w
       = (Response 200 get_cors_headers
            (Success (fallback_intent_detection text) res (workflowId res)), w'))
  /\ (forall iv,
     text <> "" ->
     statusCode (handler (Request (Some text) iv) w).1 <> 200%Z ->
     exists m,
       (workflows_fault w = Some m \/ history_fault w = Some m)
       /\ (handler (Request (Some text) iv) w).1
          = Response 500 get_cors_headers
              (Failure ("Internal server error: " +:+ m))).
Proof.
  intros Hfail.
  pose proof (fallback_complete text) as Hc.
  destruct (fallback_intent_detection text) as [[i|] [e|] c [dm|]] eqn:Hfb;
    try discriminate Hc.
  split; [|split].
  - unfold detect_intent_with_bedrock. now rewrite Hfail, Hfb.
  - intros iv Hne Hwf Hhf. rewrite (handler_nonempty _ _ _ Hne), Hfail, Hfb.
    rewrite (execute_workflow_present (IntentData (Some i) (Some e) c (Some dm))
               text (default false iv) w i e dm eq_refl eq_refl eq_refl).
    cbv zeta. rewrite Hwf, Hhf. eauto.
  - intros iv Hne. rewrite (handler_nonempty _ _ _ Hne), Hfail, Hfb.
    rewrite (execute_workflow_present (IntentData (Some i) (Some e) c (Some dm))
               text (default false iv) w i e dm eq_refl eq_refl eq_refl).
    cbv zeta.
    destruct (workflows_fault w) as [m|]; [intros _; exists m; eauto|].
    destruct (history_fault w) as [m|]; [intros _; exists m; eauto|].
    cbn. congruence.
Qed.

Lemma model_failure_falls_back_witness :
  detect_intent_with_bedrock "Please hire John Smith"
    (demo_world (CallRaises "ThrottlingException"))
  = (Returns (fallback_intent_detection "Please hire John Smith"),
     demo_world (CallRaises "ThrottlingException"))
  /\ statusCode (handler (Request (Some "Please hire John Smith") None)
                   (demo_world (CallRaises "ThrottlingException"))).1 = 200%Z.
Proof.
  destruct (model_failure_falls_back "Please hire John Smith"
              (demo_world (CallRaises "ThrottlingException"))
              "ThrottlingException" eq_refl) as [Hdetect [Hok _]].
  split; [exact Hdetect|].
  destruct (Hok None) as (res & w' & ->); [discriminate | reflexivity..].
Defined.

(** ** IntentClassifier: what is done with a parsed answer *)




(** * Further properties *)

(** ** What the matcher finds *)

Lemma string_length_app (a b : string) :
  String.length (a +:+ b) = String.length a + String.length b.
Proof.
  induction a as [|x a IH]; [reflexivity|].
  rewrite app_cons. cbn [String.length]. now rewrite IH.
Qed.

Lemma take_app (a b : string) : Str.take (String.length a) (a +:+ b) = a.
Proof.
  induction a as [|x a IH].
  - destruct b; reflexivity.
  - rewrite app_cons. cbn [String.length Str.take]. now rewrite IH.
Qed.

Lemma take_consumed (a b : string) :
  Str.take (String.length (a +:+ b) - String.length b) (a +:+ b) = a.
Proof.
  rewrite string_length_app.
  replace (String.length a + String.length b - String.length b)
    with (String.length a) by lia.
  apply take_app.
Qed.

Lemma app_empty_r (a : string) : a +:+ "" = a.
Proof.
  induction a as [|x a IH]; [reflexivity|]. rewrite app_cons. now f_equal.
Qed.

Lemma plus_cls_sound (p : ascii -> bool) (s s' : string) :
  In s' (Re.plus_cls p s) ->
  exists a, s = a +:+ s' /\ a <> "" /\ all_chars p a = true.
Proof.
  revert s'. induction s as [|c s IH]; intros s'; cbn [Re.plus_cls].
  - intros [].
  - destruct (p c) eqn:Hc; [|intros []].
    rewrite in_app_iff. intros [H | [<- | []]].
    + apply IH in H as (a & -> & _ & Ha). exists (String c a).
      rewrite app_cons. cbn [all_chars]. rewrite Hc, Ha.
      repeat split. discriminate.
    + exists (String c ""). cbn [all_chars]. rewrite Hc.
      repeat split. discriminate.
Qed.

Lemma rep_cls_sound (n : nat) (p : ascii -> bool) (s s' : string) :
  In s' (Re.rep_cls n p s) ->
  exists a, s = a +:+ s' /\ String.length a = n /\ all_chars p a = true.
Proof.
  revert s. induction n as [|n IH]; intros s; cbn [Re.rep_cls].
  - intros [<- | []]. now exists "".
  - destruct s as [|c s]; [intros []|].
    destruct (p c) eqn:Hc; [|intros []].
    intros H. apply IH in H as (a & -> & <- & Ha). exists (String c a).
    rewrite app_cons. cbn [all_chars String.length]. now rewrite Hc, Ha.
Qed.

(** Each way of matching consumes a prefix that is in the language of
    the pattern, and the group, when it took part, is a part of the
    input. *)
Lemma run_sound (r : Re.regex) :
  forall (s : string) (h : Re.hit),
    In h (Re.run r s) ->
    (exists a, s = a +:+ Re.rest h /\ matches r a)
    /\ (forall g, Re.group1 h = Some g -> occurs g s).
Proof.
  induction r as [p | r1 IH1 r2 IH2 | r1 IH1 | p | n p | r1 IH1];
    intros s h; cbn [Re.run matches].
  - destruct s as [|c s]; [intros []|].
    destruct (p c) eqn:Hc; [|intros []].
    intros [<- | []]. cbn [Re.rest Re.group1]. split; [|discriminate].
    exists (String c ""). split; [reflexivity|]. now exists c.
  - rewrite in_flat_map. intros (h1 & H1 & H).
    apply in_map_iff in H as (h2 & <- & H2).
    apply IH1 in H1 as [(a1 & Hs & M1) G1].
    apply IH2 in H2 as [(a2 & Hr & M2) G2].
    cbn [Re.rest Re.group1]. split.
    + exists (a1 +:+ a2). rewrite append_assoc, <- Hr, <- Hs.
      split; [reflexivity|]. now exists a1, a2.
    + intros g Hg. unfold Re.later in Hg.
      destruct (Re.group1 h2) as [g2|] eqn:E2.
      * injection Hg as ->. eapply occurs_trans; [now apply G2|].
        exists a1, "". rewrite app_empty_r. exact Hs.
      * now apply G1.
  - rewrite in_app_iff. intros [H | [<- | []]].
    + apply IH1 in H as [(a & Hs & M) G]. split; [|exact G].
      exists a. split; [exact Hs | now right].
    + cbn [Re.rest Re.group1]. split; [|discriminate].
      exists "". split; [reflexivity | now left].
  - rewrite in_map_iff. intros (s' & <- & H).
    apply plus_cls_sound in H as (a & -> & Ha). cbn [Re.rest Re.group1].
    split; [|discriminate]. now exists a.
  - rewrite in_map_iff. intros (s' & <- & H).
    apply rep_cls_sound in H as (a & -> & Ha). cbn [Re.rest Re.group1].
    split; [|discriminate]. now exists a.
  - rewrite in_map_iff. intros (h1 & <- & H).
    apply IH1 in H as [(a & Hs & M) _]. cbn [Re.rest Re.group1].
    split; [now exists a|].
    intros g [= <-]. subst s. rewrite take_consumed.
    now exists "", (Re.rest h1).
Qed.

(** With a group around the whole pattern, the group is the text
    consumed. *)
Lemma run_group_sound (r : Re.regex) (s : string) (h : Re.hit) :
  In h (Re.run (Re.Grp r) s) ->
  exists a, s = a +:+ Re.rest h /\ matches r a /\ Re.group1 h = Some a.
Proof.
  cbn [Re.run]. rewrite in_map_iff. intros (h1 & <- & H).
  apply run_sound in H as [(a & Hs & M) _]. cbn [Re.rest Re.group1].
  exists a. split; [exact Hs | split; [exact M|]].
  subst s. now rewrite take_consumed.
Qed.

(** Every text that [findall] reports is reported for the first way of
    matching at some position of the input. *)
Lemma findall_fuel_elem (r : Re.regex) (n : nat) :
  forall (s m : string),
    In m (Re.findall_fuel n r s) ->
    exists before s' h hs,
      s = before +:+ s' /\ Re.run r s' = h :: hs /\ m = Re.reported s' h.
Proof.
  induction n as [|n IH]; intros s m; cbn [Re.findall_fuel]; [intros []|].
  assert (Htail : forall c s0, s = String c s0 ->
            In m (Re.findall_fuel n r s0) ->
            exists before s' h hs,
              s = before +:+ s' /\ Re.run r s' = h :: hs
              /\ m = Re.reported s' h).
  { intros c s0 -> H. apply IH in H as (b & s' & h & hs & -> & Hr & Hm).
    exists (String c b), s', h, hs. now rewrite app_cons. }
  destruct (Re.run r s) as [|h hs] eqn:Hrun.
  - destruct s as [|c s0]; [intros []|]. now apply (Htail c s0).
  - intros [<- | H].
    + now exists "", s, h, hs.
    + destruct (String.length (Re.rest h) <? String.length s).
      * apply IH in H as (b & s' & h' & hs' & Hs & Hr & Hm).
        destruct (run_sound r s h) as [(a & Ha & _) _];
          [rewrite Hrun; now left|].
        exists (a +:+ b), s', h', hs'. rewrite append_assoc, <- Hs.
        now split.
      * destruct s as [|c s0]; [destruct H|]. now apply (Htail c s0).
Qed.

Lemma findall_elem (r : Re.regex) (s m : string) :
  In m (Re.findall r s) ->
  exists before s' h hs,
    s = before +:+ s' /\ Re.run r s' = h :: hs /\ m = Re.reported s' h.
Proof. apply findall_fuel_elem. Qed.

Lemma two_chars (a : string) :
  String.length a = 2 -> exists d1 d2, a = String d1 (String d2 "").
Proof.
  destruct a as [|d1 [|d2 [|d3 a]]]; cbn [String.length]; try discriminate.
  intros _. now exists d1, d2.
Qed.

Lemma found_name (s m : string) :
  In m (Re.findall name_pattern s) ->
  occurs m s
  /\ exists first last,
       m = first +:+ " " +:+ last /\ capitalized first /\ capitalized last.
Proof.
  intros H. apply findall_elem in H as (before & s' & h & hs & -> & Hrun & ->).
  unfold name_pattern in Hrun.
  assert (Hsound : exists a,
            s' = a +:+ Re.rest h
            /\ matches (Re.Cat (Re.Cls Str.is_upper)
                 (Re.Cat (Re.Plus Str.is_lower)
                 (Re.Cat (Re.Cls (Str.is_char " "))
                 (Re.Cat (Re.Cls Str.is_upper) (Re.Plus Str.is_lower))))) a
            /\ Re.group1 h = Some a).
  { apply run_group_sound. rewrite Hrun. now left. }
  destruct Hsound as (a & Hs & M & G).
  unfold Re.reported. rewrite G. split.
  { exists before, (Re.rest h). now rewrite <- Hs. }
  cbn [matches] in M.
  destruct M as (a1 & t1 & -> & (c1 & -> & U1) & a2 & t2 & -> & (N1 & L1)
                 & a3 & t3 & -> & (sp & -> & Hsp)
                 & a4 & a5 & -> & (c2 & -> & U2) & (N2 & L2)).
  apply Ascii.eqb_eq in Hsp. subst sp.
  exists (String c1 a2), (String c2 a5). split.
  - now rewrite !app_cons, !app_nil.
  - split; [now exists c1, a2 | now exists c2, a5].
Qed.

Lemma found_amount (s m : string) :
  In m (Re.findall amount_pattern s) -> occurs m s /\ decimal_number m.
Proof.
  intros H. apply findall_elem in H as (before & s' & h & hs & -> & Hrun & ->).
  assert (Hin : In h (Re.run amount_pattern s')) by (rewrite Hrun; now left).
  unfold amount_pattern in Hin. cbn [Re.run] in Hin.
  fold (Re.run (Re.Opt (Re.Cls (Str.is_char "$"))) s') in Hin.
  apply in_flat_map in Hin as (h1 & H1 & Hin).
  apply in_map_iff in Hin as (h2 & <- & H2).
  apply run_sound in H1 as [(a1 & Hs1 & _) _].
  match type of H2 with
  | In _ (map _ ?l) =>
      assert (H2' : In h2 (Re.run (Re.Grp (Re.Cat (Re.Plus Str.is_digit)
                      (Re.Opt (Re.Cat (Re.Cls (Str.is_char "."))
                                      (Re.Rep 2 Str.is_digit))))) (Re.rest h1)))
        by exact H2
  end.
  clear H2. apply run_group_sound in H2' as (a2 & Hs2 & M & G).
  unfold Re.reported, Re.later. cbn [Re.group1 Re.rest]. rewrite G. split.
  { exists (before +:+ a1), (Re.rest h2).
    rewrite append_assoc, <- Hs2, <- Hs1. reflexivity. }
  cbn [matches] in M.
  destruct M as (whole & cents & -> & (Nw & Dw) & Hc).
  exists whole, cents. repeat split; try assumption.
  destruct Hc as [-> | (dot & dd & -> & (c & -> & Hdot) & (Hlen & Hdd))];
    [now left | right].
  apply Ascii.eqb_eq in Hdot. subst c.
  destruct (two_chars _ Hlen) as (d1 & d2 & ->).
  cbn [all_chars] in Hdd. rewrite andb_true_r in Hdd.
  apply andb_true_iff in Hdd as [Hd1 Hd2].
  now exists d1, d2.
Qed.

(** ** EntityExtractor: the result, key by key *)

Lemma eqb_same (k : string) : String.eqb k k = true.
Proof. apply String.eqb_refl. Qed.

Lemma extract_step_other (text : string) (acc : gmap string string)
    (t k : string) :
  k <> t -> extract_step text acc t !! k = acc !! k.
Proof.
  intros Hne. unfold extract_step.
  repeat match goal with
  | |- context [String.eqb t ?c] => destruct (String.eqb t c)
  | |- context [match ?x with _ => _ end] => destruct x
  end; try reflexivity; now rewrite lookup_insert_ne by congruence.
Qed.

Lemma extract_step_same (text : string) (acc : gmap string string)
    (k : string) :
  extract_step text acc k !! k =
  match heuristic_value text k with
  | Some v => Some v
  | None => acc !! k
  end.
Proof.
  unfold extract_step, heuristic_value.
  destruct (String.eqb k "employee_name").
  { destruct (Re.findall name_pattern text); cbn [hd_error];
      [reflexivity | apply lookup_insert_eq]. }
  destruct (String.eqb k "amount").
  { destruct (Re.findall amount_pattern text); cbn [hd_error option_map];
      [reflexivity | apply lookup_insert_eq]. }
  destruct (String.eqb k "role"); [|reflexivity].
  destruct (find _ roles); cbn [option_map];
    [apply lookup_insert_eq | reflexivity].
Qed.

Lemma extract_fold_value (text : string) (types : list string) (k : string) :
  forall acc : gmap string string,
    foldl (extract_step text) acc types !! k =
    if existsb (String.eqb k) types then
      match heuristic_value text k with
      | Some v => Some v
      | None => acc !! k
      end
    else acc !! k.
Proof.
  induction types as [|t types IH]; intros acc; cbn [foldl existsb];
    [reflexivity|].
  rewrite IH. destruct (String.eqb k t) eqn:E; cbn [orb].
  - apply String.eqb_eq in E. subst t. rewrite extract_step_same.
    destruct (existsb _ types), (heuristic_value text k); reflexivity.
  - apply String.eqb_neq in E. now rewrite extract_step_other.
Qed.

Lemma existsb_eqb_In (k : string) (types : list string) :
  existsb (String.eqb k) types = true <-> In k types.
Proof.
  rewrite existsb_exists. split.
  - intros (t & Hin & E). apply String.eqb_eq in E. now subst.
  - intros Hin. exists k. split; [exact Hin | apply eqb_same].
Qed.

Lemma extract_requested (text : string) (types : list string) (k : string) :
  In k types -> extract_entities text types !! k = heuristic_value text k.
Proof.
  intros H. unfold extract_entities. rewrite extract_fold_value.
  apply existsb_eqb_In in H. rewrite H, lookup_empty.
  now destruct (heuristic_value text k).
Qed.

Lemma extract_unrequested (text : string) (types : list string) (k : string) :
  ~ In k types -> extract_entities text types !! k = None.
Proof.
  intros H. unfold extract_entities. rewrite extract_fold_value.
  destruct (existsb (String.eqb k) types) eqn:E.
  - apply existsb_eqb_In in E. contradiction.
  - apply lookup_empty.
Qed.

(** X1. The result of [extract_entities] can be read key by key: a
    requested type has exactly what its heuristic finds in the text, a
    type that was not requested has nothing.  So neither the order of
    the requested types nor repetitions among them matter. *)
Theorem extract_entities_by_key (text : string) :
  (forall types k,
     In k types -> extract_entities text types !! k = heuristic_value text k)
  /\ (forall types k,
     ~ In k types -> extract_entities text types !! k = None)
  /\ (forall types1 types2,
     (forall k, In k types1 <-> In k types2) ->
     extract_entities text types1 = extract_entities text types2).
Proof.
  split; [exact (extract_requested text) | split; [exact (extract_unrequested text)|]].
  intros types1 types2 Hsame. apply map_eq. intros k.
  destruct (existsb (String.eqb k) types1) eqn:E.
  - apply existsb_eqb_In in E. rewrite (extract_requested _ _ _ E).
    apply Hsame in E. now rewrite (extract_requested _ _ _ E).
  - assert (H1 : ~ In k types1).
    { intros H. apply existsb_eqb_In in H. congruence. }
    rewrite (extract_unrequested _ _ _ H1). symmetry.
    apply extract_unrequested. now rewrite <- Hsame.
Qed.

Lemma extract_entities_by_key_witness :
  extract_entities "Hire Ann Lee as analyst for $90" ["role"; "amount"] !! "role"
    = Some "Analyst"
  /\ extract_entities "Hire Ann Lee as analyst for $90" ["role"; "amount"]
       !! "employee_name" = None
  /\ extract_entities "Hire Ann Lee as analyst for $90"
       ["amount"; "role"; "amount"]
     = extract_entities "Hire Ann Lee as analyst for $90" ["role"; "amount"].
Proof.
  destruct (extract_entities_by_key "Hire Ann Lee as analyst for $90")
    as [Hin [Hout Hsame]].
  split; [|split].
  - rewrite Hin by (cbn; tauto). vm_compute. reflexivity.
  - apply Hout. cbn. intros [H | [H | []]]; discriminate H.
  - apply Hsame. intros k. cbn. tauto.
Defined.

Lemma any_char_app (p : ascii -> bool) (a b : string) :
  any_char p (a +:+ b) = any_char p a || any_char p b.
Proof.
  induction a as [|x a IH]; [reflexivity|].
  rewrite app_cons. cbn [any_char]. now rewrite IH, orb_assoc.
Qed.

Lemma any_char_occurs (p : ascii -> bool) (m s : string) :
  occurs m s -> any_char p m = true -> any_char p s = true.
Proof.
  intros (a & b & ->) H. rewrite !any_char_app, H.
  now rewrite orb_true_r.
Qed.

Lemma all_chars_any (p : ascii -> bool) (a : string) :
  a <> "" -> all_chars p a = true -> any_char p a = true.
Proof.
  destruct a as [|c a]; [congruence|]. cbn [all_chars any_char].
  intros _ H. apply andb_true_iff in H as [-> _]. reflexivity.
Qed.

(** X2. An extracted employee name is a part of the text as it stands,
    and it is two capitalized words with one space between them.  A
    text without upper-case letters therefore has no employee name. *)
Theorem employee_name_is_from_text (text : string) (types : list string) :
  (forall v,
     extract_entities text types !! "employee_name" = Some v ->
     occurs v text
     /\ exists first last,
          v = first +:+ " " +:+ last /\ capitalized first /\ capitalized last)
  /\ (any_char Str.is_upper text = false ->
      extract_entities text types !! "employee_name" = None).
Proof.
  assert (Hshape : forall v,
     extract_entities text types !! "employee_name" = Some v ->
     occurs v text
     /\ exists first last,
          v = first +:+ " " +:+ last /\ capitalized first /\ capitalized last).
  { intros v H. apply extract_entities_lookup in H as [_ H].
    destruct H as [[_ (more & H)] | [[H _] | [H _]]]; try discriminate H.
    apply found_name. rewrite H. now left. }
  split; [exact Hshape|].
  intros Hno.
  destruct (extract_entities text types !! "employee_name") as [v|] eqn:E;
    [|reflexivity].
  destruct (Hshape v eq_refl)
    as [Hocc (first & last & -> & (c & tail & -> & U & _) & _)].
  assert (any_char Str.is_upper text = true); [|congruence].
  apply (any_char_occurs _ _ _ Hocc).
  rewrite app_cons. cbn [any_char]. now rewrite U.
Qed.

Lemma employee_name_is_from_text_witness :
  (occurs "Ann Lee" "please onboard Ann Lee on Monday")
  /\ extract_entities "please onboard ann lee" ["employee_name"]
       !! "employee_name" = None.
Proof.
  split.
  - apply (proj1 (employee_name_is_from_text "please onboard Ann Lee on Monday"
                    ["employee_name"; "role"])).
    vm_compute. reflexivity.
  - apply (proj2 (employee_name_is_from_text "please onboard ann lee"
                    ["employee_name"])).
    vm_compute. reflexivity.
Defined.

Lemma digit_is_not_dollar (c : ascii) :
  Str.is_digit c = true -> Str.is_char "$" c = false.
Proof.
  destruct c as [[] [] [] [] [] [] [] []]; vm_compute; congruence.
Qed.

Lemma amount_at_digit (c : ascii) (s : string) :
  Str.is_digit c = true -> Re.run amount_pattern (String c s) <> [].
Proof.
  intros Hd.
  assert (Hin : In (Re.Hit s (Some (Str.take
                      (String.length (String c s) - String.length s)
                      (String c s))))
                   (Re.run amount_pattern (String c s))).
  { unfold amount_pattern. cbn [Re.run]. rewrite (digit_is_not_dollar c Hd).
    cbn [app flat_map Re.rest Re.group1 Re.plus_cls]. rewrite Hd.
    rewrite app_nil_r, map_map, in_map_iff.
    exists (Re.Hit s None). split; [reflexivity|].
    rewrite in_flat_map. exists (Re.Hit s None). split.
    - rewrite in_map_iff. exists s. split; [reflexivity|].
      apply in_app_iff. right. now left.
    - cbn [Re.rest Re.group1]. rewrite in_map_iff.
      exists (Re.Hit s None). split; [reflexivity|].
      apply in_app_iff. right. now left. }
  intros E. now rewrite E in Hin.
Qed.

Lemma findall_cons (r : Re.regex) (c : ascii) (s : string) :
  Re.findall r (String c s) =
  match Re.run r (String c s) with
  | h :: _ =>
      Re.reported (String c s) h ::
      (if String.length (Re.rest h) <? String.length (String c s)
       then Re.findall_fuel (S (String.length s)) r (Re.rest h)
       else Re.findall r s)
  | [] => Re.findall r s
  end.
Proof. reflexivity. Qed.

Lemma amount_found_if_digit (s : string) :
  any_char Str.is_digit s = true -> Re.findall amount_pattern s <> [].
Proof.
  induction s as [|c s IH]; cbn [any_char]; [discriminate|].
  intros H. rewrite findall_cons.
  destruct (Re.run amount_pattern (String c s)) as [|h hs] eqn:Hrun;
    [|discriminate].
  destruct (Str.is_digit c) eqn:Hd.
  - now destruct (amount_at_digit c s Hd).
  - now apply IH.
Qed.

(** X3. An extracted amount is "$" followed by a number that is a part
    of the text: digits, possibly followed by a point and exactly two
    digits.  When amount is requested, it is found exactly when the
    text has a digit somewhere. *)
Theorem amount_is_from_text (text : string) (types : list string) :
  (forall v,
     extract_entities text types !! "amount" = Some v ->
     exists m, v = "$" +:+ m /\ decimal_number m /\ occurs m text)
  /\ (In "amount" types ->
      (is_Some (extract_entities text types !! "amount")
       <-> any_char Str.is_digit text = true)).
Proof.
  assert (Hshape : forall v,
     extract_entities text types !! "amount" = Some v ->
     exists m, v = "$" +:+ m /\ decimal_number m /\ occurs m text).
  { intros v H. apply extract_entities_lookup in H as [_ H].
    destruct H as [[H _] | [[_ (m & more & H & ->)] | [H _]]];
      try discriminate H.
    exists m. split; [reflexivity|].
    apply and_comm, found_amount. rewrite H. now left. }
  split; [exact Hshape|].
  intros Hreq. split.
  - intros [v Hv]. apply Hshape in Hv as (m & _ & Hm & Hocc).
    apply (any_char_occurs _ _ _ Hocc).
    destruct Hm as (whole & cents & -> & Hne & Hall & _).
    rewrite any_char_app, (all_chars_any _ _ Hne Hall). reflexivity.
  - intros Hd. apply amount_found_if_digit in Hd.
    rewrite (extract_requested text types "amount" Hreq).
    unfold heuristic_value. cbn [String.eqb Ascii.eqb Bool.eqb andb].
    change (String.eqb "amount" "employee_name") with false.
    change (String.eqb "amount" "amount") with true. cbv iota.
    destruct (Re.findall amount_pattern text) as [|m more]; [congruence|].
    cbn [hd_error option_map]. eauto.
Qed.

Lemma amount_is_from_text_witness :
  (exists m, "$12.50" = "$" +:+ m /\ decimal_number m
             /\ occurs m "lunch receipt 12.505 euros")
  /\ is_Some (extract_entities "meet in room 5" ["amount"] !! "amount").
Proof.
  split.
  - apply (proj1 (amount_is_from_text "lunch receipt 12.505 euros" ["amount"])).
    vm_compute. reflexivity.
  - apply (proj2 (amount_is_from_text "meet in room 5" ["amount"])).
    + now left.
    + vm_compute. reflexivity.
Defined.

Lemma find_first {A} (f : A -> bool) (before : list A) (x : A) (after : list A) :
  f x = true ->
  (forall y, In y before -> f y = false) ->
  find f (before ++ x :: after) = Some x.
Proof.
  intros Hx. induction before as [|y before IH]; intros Hb; cbn [app find].
  - now rewrite Hx.
  - rewrite (Hb y (or_introl eq_refl)). apply IH.
    intros z Hz. apply Hb. now right.
Qed.

(** X4. An extracted role is one of Developer, Engineer, Manager,
    Analyst, Designer, Intern.  The vocabulary developer, engineer,
    manager, analyst, designer, intern is tried in that order on the
    lower-cased text, and the first word of it that occurs gives the
    role, title-cased, wherever the words stand in the text: a text
    that mentions a developer gets Developer in whatever case it is
    written and whatever other roles it mentions, and "the internship
    manager is an engineer" gets Engineer.  A text that mentions none
    of the six has no role. *)
Theorem role_is_from_vocabulary (text : string) (types : list string) :
  (forall v, extract_entities text types !! "role" = Some v -> In v role_titles)
  /\ (In "role" types ->
      Str.contains "developer" (Str.lower text) = true ->
      extract_entities text types !! "role" = Some "Developer")
  /\ (any_in roles (Str.lower text) = false ->
      extract_entities text types !! "role" = None)
  /\ (forall before role after,
      In "role" types ->
      ["developer"; "engineer"; "manager"; "analyst"; "designer"; "intern"]
      = before ++ role :: after ->
      Str.contains role (Str.lower text) = true ->
      (forall earlier, In earlier before ->
         Str.contains earlier (Str.lower text) = false) ->
      extract_entities text types !! "role" = Some (Str.title role))
  /\ map Str.title
       ["developer"; "engineer"; "manager"; "analyst"; "designer"; "intern"]
     = ["Developer"; "Engineer"; "Manager"; "Analyst"; "Designer"; "Intern"].
Proof.
  assert (Hval : forall v,
            extract_entities text types !! "role" = Some v ->
            exists role,
              find (fun role => Str.contains role (Str.lower text)) roles
              = Some role /\ v = Str.title role).
  { intros v H. apply extract_entities_lookup in H as [_ H].
    destruct H as [[H _] | [[H _] | [_ H]]]; try discriminate H. exact H. }
  split; [|split; [|split; [|split]]].
  - intros v H. apply Hval in H as (role & Hf & ->).
    apply find_some in Hf as [Hin _]. unfold roles in Hin. cbn [In] in Hin.
    unfold role_titles. cbn [In].
    repeat (destruct Hin as [<- | Hin]; [vm_compute; tauto|]).
    destruct Hin.
  - intros Hreq Hdev.
    rewrite (extract_requested text types "role" Hreq).
    unfold heuristic_value.
    change (String.eqb "role" "employee_name") with false.
    change (String.eqb "role" "amount") with false.
    change (String.eqb "role" "role") with true. cbv iota.
    unfold roles. cbn [find]. rewrite Hdev. reflexivity.
  - intros Hnone.
    destruct (extract_entities text types !! "role") as [v|] eqn:E;
      [|reflexivity].
    destruct (Hval v eq_refl) as (role & Hf & _).
    apply find_some in Hf as [Hin Hc].
    unfold any_in in Hnone.
    assert (existsb (fun word => Str.contains word (Str.lower text)) roles
            = true) by (apply existsb_exists; now exists role).
    congruence.
  - intros before role after Hreq Hsplit Hrole Hearlier.
    rewrite (extract_requested text types "role" Hreq).
    unfold heuristic_value.
    change (String.eqb "role" "employee_name") with false.
    change (String.eqb "role" "amount") with false.
    change (String.eqb "role" "role") with true. cbv iota.
    change roles
      with ["developer"; "engineer"; "manager"; "analyst"; "designer"; "intern"].
    rewrite Hsplit.
    rewrite (find_first (fun role => Str.contains role (Str.lower text))
               before role after Hrole Hearlier).
    reflexivity.
  - vm_compute. reflexivity.
Qed.

Lemma role_is_from_vocabulary_witness :
  extract_entities "Our MANAGER will hire a Developer" ["role"] !! "role"
    = Some "Developer"
  /\ extract_entities "Our director will hire a dev" ["role"] !! "role" = None
  /\ extract_entities "the internship manager is an engineer" ["role"] !! "role"
     = Some (Str.title "engineer").
Proof.
  destruct (role_is_from_vocabulary "Our MANAGER will hire a Developer" ["role"])
    as [_ [Hdev _]].
  destruct (role_is_from_vocabulary "Our director will hire a dev" ["role"])
    as [_ [_ [Hnone _]]].
  destruct (role_is_from_vocabulary "the internship manager is an engineer"
              ["role"])
    as [_ [_ [_ [Horder _]]]].
  split; [|split].
  - apply Hdev; [now left | vm_compute; reflexivity].
  - apply Hnone. vm_compute. reflexivity.
  - apply (Horder ["developer"] "engineer"
             ["manager"; "analyst"; "designer"; "intern"]).
    + now left.
    + reflexivity.
    + vm_compute. reflexivity.
    + intros earlier [<- | []]. vm_compute. reflexivity.
Defined.

(** ** FallbackClassifier: the whole result *)

Lemma fallback_result (text : string) :
  fallback_intent_detection text =
  let '(i, d, c) := fallback_label (Str.lower text) in
  IntentData (Some i) (Some (extract_entities text (fallback_requests i)))
             (Some c) (Some d).
Proof.
  unfold fallback_intent_detection, fallback_label.
  change ["onboard"; "hire"; "new employee"; "join"] with hr_keywords.
  change ["ticket"; "issue"; "problem"; "bug"; "error"] with it_keywords.
  change ["expense"; "reimburse"; "receipt"; "payment"] with finance_keywords.
  change ["meeting"; "schedule"; "calendar"; "appointment"] with meeting_keywords.
  destruct (any_in hr_keywords _); [reflexivity|].
  destruct (any_in it_keywords _); [reflexivity|].
  destruct (any_in finance_keywords _); [reflexivity|].
  destruct (any_in meeting_keywords _); reflexivity.
Qed.

(** X5. Intent, domain and confidence of the fallback classification
    depend on the text only through its lower-cased form: two texts
    that differ in letter case alone get the same three.  (The entities
    may differ, the name pattern being case-sensitive.) *)
Theorem fallback_ignores_case (text1 text2 : string) :
  Str.lower text1 = Str.lower text2 ->
  intent (fallback_intent_detection text1) = intent (fallback_intent_detection text2)
  /\ domain (fallback_intent_detection text1) = domain (fallback_intent_detection text2)
  /\ confidence (fallback_intent_detection text1)
     = confidence (fallback_intent_detection text2).
Proof.
  intros H. rewrite !fallback_result, H.
  destruct (fallback_label (Str.lower text2)) as [[i d] c].
  repeat split.
Qed.

Lemma fallback_ignores_case_witness :
  intent (fallback_intent_detection "ONBOARD Ann Lee")
    = intent (fallback_intent_detection "onboard ann lee")
  /\ entities (fallback_intent_detection "ONBOARD Ann Lee")
    <> entities (fallback_intent_detection "onboard ann lee").
Proof.
  split.
  - apply (fallback_ignores_case "ONBOARD Ann Lee" "onboard ann lee").
    vm_compute. reflexivity.
  - vm_compute. discriminate.
Defined.

(** X6. The fallback classification always has all four fields, and
    its intent, domain and confidence are one of five fixed triples:
    confidence 0.8 with a keyword intent, 0.5 with General_Query.  It
    never gives HR_Offboarding, IT_Password_Reset or Finance_Approval,
    which the prompt offers to the model. *)
Theorem fallback_result_range (text : string) :
  (exists e,
     entities (fallback_intent_detection text) = Some e
     /\ exists i d c,
          intent (fallback_intent_detection text) = Some i
          /\ domain (fallback_intent_detection text) = Some d
          /\ confidence (fallback_intent_detection text) = Some c
          /\ In (i, d, c)
               [("HR_Onboarding", "HR", QArith_base.Qmake 8 10);
                ("IT_Ticket", "IT", QArith_base.Qmake 8 10);
                ("Finance_Expense", "Finance", QArith_base.Qmake 8 10);
                ("Meeting_Schedule", "General", QArith_base.Qmake 8 10);
                ("General_Query", "General", QArith_base.Qmake 5 10)])
  /\ forall i, In i model_only_intents ->
       intent (fallback_intent_detection text) <> Some i.
Proof.
  rewrite fallback_result. unfold fallback_label.
  destruct (any_in hr_keywords _);
    [|destruct (any_in it_keywords _);
      [|destruct (any_in finance_keywords _);
        [|destruct (any_in meeting_keywords _)]]];
    (split;
     [ eexists; split; [reflexivity|];
       eexists _, _, _; repeat (split; [reflexivity|]); cbn [In]; tauto
     | intros i Hi; cbn in Hi;
       destruct Hi as [<- | [<- | [<- | []]]]; discriminate ]).
Qed.

Lemma fallback_result_range_witness :
  intent (fallback_intent_detection "Approve the payment, reset my password")
    <> Some "Finance_Approval".
Proof.
  apply (proj2 (fallback_result_range "Approve the payment, reset my password")).
  cbn. tauto.
Defined.

(** ** Fallback classification and catalog together *)

Lemma get_absent (e : gmap string string) (key default : string) :
  e !! key = None -> get e key default = default.
Proof. unfold get. now intros ->. Qed.

Lemma get_from (e : gmap string string) (key default : string)
    (o : option string) :
  e !! key = o -> get e key default = from_option id default o.
Proof. unfold get. intros ->. now destruct o. Qed.

(** X7. For a text classified by the fallback, title and description
    of the workflow are fixed by the intent alone, except for what the
    three heuristics can supply: the employee name and the role for
    HR_Onboarding, the amount for Finance_Expense.  In particular an
    IT ticket is always titled "IT Support Ticket - Technical Issue"
    and an expense report "Expense Report - Business Expense". *)
Theorem fallback_titles (text i : string) (e : gmap string string) :
  intent (fallback_intent_detection text) = Some i ->
  entities (fallback_intent_detection text) = Some e ->
  get_workflow_title i e =
    (if String.eqb i "HR_Onboarding" then
       "Employee Onboarding - "
         +:+ default "New Employee" (heuristic_value text "employee_name")
     else if String.eqb i "IT_Ticket" then "IT Support Ticket - Technical Issue"
     else if String.eqb i "Finance_Expense" then "Expense Report - Business Expense"
     else if String.eqb i "Meeting_Schedule" then "Schedule Meeting - Meeting"
     else "Workflow - General_Query")
  /\ get_workflow_description i e =
    (if String.eqb i "HR_Onboarding" then
       "Setting up accounts, scheduling orientation, and preparing workspace for "
         +:+ default "new role" (heuristic_value text "role") +:+ "."
     else if String.eqb i "IT_Ticket" then
       "Investigating and resolving technical issue."
     else if String.eqb i "Finance_Expense" then
       "Processing expense report for "
         +:+ default "business expense" (heuristic_value text "amount") +:+ "."
     else if String.eqb i "Meeting_Schedule" then
       "Scheduling meeting and sending calendar invites."
     else "Processing workflow request.").
Proof.
  rewrite fallback_result. unfold fallback_label.
  destruct (any_in hr_keywords _);
    [|destruct (any_in it_keywords _);
      [|destruct (any_in finance_keywords _);
        [|destruct (any_in meeting_keywords _)]]];
    cbn [intent entities]; intros [= <-] [= <-];
    unfold get_workflow_title, get_workflow_description;
    match goal with
    | |- context [String.eqb ?a "HR_Onboarding"] =>
        let b := eval vm_compute in (String.eqb a "HR_Onboarding") in
        change (String.eqb a "HR_Onboarding") with b;
        let b := eval vm_compute in (String.eqb a "IT_Ticket") in
        change (String.eqb a "IT_Ticket") with b;
        let b := eval vm_compute in (String.eqb a "Finance_Expense") in
        change (String.eqb a "Finance_Expense") with b;
        let b := eval vm_compute in (String.eqb a "Meeting_Schedule") in
        change (String.eqb a "Meeting_Schedule") with b
    end; cbv iota.
  - rewrite (get_from _ "employee_name" _ (heuristic_value text "employee_name")),
      (get_from _ "role" _ (heuristic_value text "role"));
      [split; reflexivity | |];
      apply extract_requested; cbn; tauto.
  - rewrite (get_absent _ "issue_type"), (get_absent _ "description");
      [split; reflexivity | |];
      (rewrite extract_requested by (cbn; tauto)); reflexivity.
  - rewrite (get_absent _ "description"),
      (get_from _ "amount" _ (heuristic_value text "amount"));
      [split; reflexivity | |].
    + apply extract_requested; cbn; tauto.
    + rewrite extract_requested by (cbn; tauto). reflexivity.
  - rewrite (get_absent _ "subject"); [split; reflexivity|].
    rewrite extract_requested by (cbn; tauto). reflexivity.
  - split; reflexivity.
Qed.

Lemma fallback_titles_witness :
  get_workflow_title "IT_Ticket"
    (extract_entities "Ann Lee the manager has a $5 problem"
       ["issue_type"; "priority"; "description"])
  = "IT Support Ticket - Technical Issue".
Proof.
  apply (fallback_titles "Ann Lee the manager has a $5 problem" "IT_Ticket").
  - vm_compute. reflexivity.
  - vm_compute. reflexivity.
Defined.

(** X8. Whatever the intent, the catalog gives between two and five
    steps, all of them pending and with different names. *)
Theorem steps_start_pending (intent : string) :
  2 <= length (get_workflow_steps intent) <= 5
  /\ Forall (fun st => step_status st = "pending") (get_workflow_steps intent)
  /\ NoDup (map name (get_workflow_steps intent)).
Proof.
  destruct (String.eqb intent "HR_Onboarding") eqn:E1;
    [apply String.eqb_eq in E1; subst intent|];
    [|destruct (String.eqb intent "IT_Ticket") eqn:E2;
      [apply String.eqb_eq in E2; subst intent|]];
    [| |destruct (String.eqb intent "Finance_Expense") eqn:E3;
      [apply String.eqb_eq in E3; subst intent|]];
    [| | |destruct (String.eqb intent "Meeting_Schedule") eqn:E4;
      [apply String.eqb_eq in E4; subst intent|]].
  5: { apply String.eqb_neq in E1, E2, E3, E4.
       destruct (generic_catalog intent ∅) as (_ & _ & ->).
       { cbn. intros [H | [H | [H | [H | []]]]]; congruence. }
       unfold generic_steps. cbn [length map name].
       split; [lia | split].
       - repeat constructor.
       - apply NoDup_ListNoDup. repeat constructor; cbn; intuition discriminate. }
  all: match goal with
       | |- context [get_workflow_steps ?i] =>
           let steps := eval vm_compute in (get_workflow_steps i) in
           change (get_workflow_steps i) with steps
       end;
       cbn [length map name];
       (split; [lia | split;
         [repeat constructor
         | apply NoDup_ListNoDup; repeat constructor; cbn;
           intuition discriminate]]).
Qed.

(** ** WorkflowOrchestrator: which requests succeed, and what is written *)

Lemma detect_classification (t : string) (w : world) :
  detect_intent_with_bedrock t w = (Returns (classification w t), w).
Proof.
  unfold detect_intent_with_bedrock, classification.
  now destruct (invoke_model w t).
Qed.

Lemma handler_run (t : string) (iv : option bool) (w : world) :
  t <> "" ->
  handler (Request (Some t) iv) w =
  match execute_workflow (classification w t) t (default false iv) w with
  | (Returns res, w') =>
      (Response 200 get_cors_headers
         (Success (classification w t) res (workflowId res)), w')
  | (Raises e, w') =>
      (Response 500 get_cors_headers
         (Failure ("Internal server error: " +:+ str_exn e)), w')
  end.
Proof.
  intros Hne. rewrite (handler_nonempty _ _ _ Hne). unfold classification.
  now destruct (invoke_model w t).
Qed.

Lemma handler_no_text (event : request) (w : world) :
  default "" (text event) = "" -> handler event w = (bad_request, w).
Proof.
  destruct event as [[t|] iv]; cbn [text default from_option id].
  - intros ->. reflexivity.
  - reflexivity.
Qed.

Lemma event_text (event : request) :
  default "" (text event) <> "" ->
  exists t iv, event = Request (Some t) iv /\ t <> "".
Proof.
  destruct event as [[t|] iv]; cbn [text default from_option id].
  - intros H. now exists t, iv.
  - congruence.
Qed.

Lemma present_fields (d : intent_data) :
  first_missing d = None ->
  exists i e dm, intent d = Some i /\ entities d = Some e /\ domain d = Some dm.
Proof.
  destruct d as [[i|] [e|] c [dm|]]; try discriminate. intros _.
  now exists i, e, dm.
Qed.




(** X10. There is no rollback.  For a request that gets as far as the
    writes: when the workflows table refuses the write, the answer is
    500 with the table's message and nothing is written; when only the
    history table refuses, the answer is 500 with its message and the
    workflow item stays written, with no history item for it. *)
Theorem handler_partial_write (t : string) (iv : option bool) (w : world) :
  t <> "" ->
  first_missing (classification w t) = None ->
  (forall m,
     workflows_fault w = Some m ->
     (handler (Request (Some t) iv) w).1
     = Response 500 get_cors_headers (Failure ("Internal server error: " +:+ m))
     /\ writes (handler (Request (Some t) iv) w).2 = writes w
     /\ workflows_table (handler (Request (Some t) iv) w).2 = workflows_table w
     /\ workflow_history_table (handler (Request (Some t) iv) w).2
        = workflow_history_table w)
  /\ (forall m,
     workflows_fault w = None -> history_fault w = Some m ->
     (handler (Request (Some t) iv) w).1
     = Response 500 get_cors_headers (Failure ("Internal server error: " +:+ m))
     /\ exists record,
          wf_id record = next_workflow_id w
          /\ wf_originalText record = t
          /\ writes (handler (Request (Some t) iv) w).2
             = writes w ++ [PutWorkflow record]
          /\ workflows_table (handler (Request (Some t) iv) w).2
             = <[next_workflow_id w := record]> (workflows_table w)
          /\ workflow_history_table (handler (Request (Some t) iv) w).2
             = workflow_history_table w).
Proof.
  intros Hne Hm.
  destruct (present_fields _ Hm) as (i & e & dm & Hi & He & Hd).
  rewrite (handler_run _ _ _ Hne).
  rewrite (execute_workflow_present _ t (default false iv) w i e dm Hi He Hd).
  cbv zeta. split.
  - intros m ->. repeat split.
  - intros m -> ->. split; [reflexivity|].
    exists (new_workflow w i e dm t (default false iv)). repeat split.
Qed.

Lemma handler_partial_write_witness :
  exists record,
    writes (handler (Request (Some "hire Ann Lee") None)
              (World ∅ ∅ [] None (Some "ProvisionedThroughputExceeded")
                 (fun n => "id-" +:+ digit n) 0 (fun n => "t-" +:+ digit n) 0
                 (fun _ => CallRaises "down"))).2
    = [] ++ [PutWorkflow record]
    /\ wf_id record = "id-0".
Proof.
  destruct (proj2 (handler_partial_write "hire Ann Lee" None
              (World ∅ ∅ [] None (Some "ProvisionedThroughputExceeded")
                 (fun n => "id-" +:+ digit n) 0 (fun n => "t-" +:+ digit n) 0
                 (fun _ => CallRaises "down"))
              ltac:(discriminate) eq_refl)
              "ProvisionedThroughputExceeded" eq_refl eq_refl)
    as (_ & record & Hid & _ & Hws & _).
  exists record. split; [exact Hws | exact Hid].
Defined.

(** What a call of [execute_workflow] can do to the store: nothing, one
    workflow write, or a workflow write and a history write, under the
    ids drawn next. *)
Lemma execute_workflow_effect (d : intent_data) (t : string) (v : bool)
    (w : world) :
  let w' := (execute_workflow d t v w).2 in
  (workflows_table w' = workflows_table w
   /\ workflow_history_table w' = workflow_history_table w
   /\ writes w' = writes w)
  \/ (exists record,
       workflows_table w' = <[next_workflow_id w := record]> (workflows_table w)
       /\ workflow_history_table w' = workflow_history_table w
       /\ writes w' = writes w ++ [PutWorkflow record])
  \/ (exists record entry,
       workflows_table w' = <[next_workflow_id w := record]> (workflows_table w)
       /\ workflow_history_table w'
          = <[next_history_id w := entry]> (workflow_history_table w)
       /\ writes w' = writes w ++ [PutWorkflow record; PutHistory entry]).
Proof.
  cbv zeta.
  destruct (first_missing d) as [key|] eqn:Hm.
  { rewrite (execute_workflow_missing _ _ _ _ _ Hm). left. repeat split. }
  destruct (present_fields _ Hm) as (i & e & dm & Hi & He & Hd).
  rewrite (execute_workflow_present _ t v w i e dm Hi He Hd). cbv zeta.
  destruct (workflows_fault w); [left; repeat split|].
  destruct (history_fault w).
  - right. left. exists (new_workflow w i e dm t v). repeat split.
  - right. right.
    exists (new_workflow w i e dm t v),
           (new_history w (new_workflow w i e dm t v)).
    repeat split. cbn. now rewrite <- app_assoc.
Qed.

Lemma handler_world (event : request) (w : world) :
  (handler event w).2 = w
  \/ exists d t v, (handler event w).2 = (execute_workflow d t v w).2.
Proof.
  destruct (String.eqb (default "" (text event)) "") eqn:E.
  - apply String.eqb_eq in E. left. now rewrite (handler_no_text _ _ E).
  - apply String.eqb_neq in E.
    destruct (event_text _ E) as (t & iv & -> & Hne). right.
    exists (classification w t), t, (default false iv).
    rewrite (handler_run _ _ _ Hne).
    now destruct (execute_workflow _ t _ w) as [[res|e] w'].
Qed.

(** X11. A request never removes or alters what the store already
    holds under other ids: in each table every key except the id drawn
    for the new item reads as before, no key disappears, the writes
    done so far stay as they are, and at most two writes are added. *)
Theorem handler_preserves_store (event : request) (w : world) :
  (forall k, k <> next_workflow_id w ->
     workflows_table (handler event w).2 !! k = workflows_table w !! k)
  /\ (forall k, k <> next_history_id w ->
     workflow_history_table (handler event w).2 !! k
     = workflow_history_table w !! k)
  /\ dom (workflows_table w) ⊆ dom (workflows_table (handler event w).2)
  /\ dom (workflow_history_table w)
     ⊆ dom (workflow_history_table (handler event w).2)
  /\ writes w `prefix_of` writes (handler event w).2
  /\ length (writes (handler event w).2) <= length (writes w) + 2.
Proof.
  destruct (handler_world event w) as [-> | (d & t & v & ->)].
  { repeat split; try reflexivity. lia. }
  destruct (execute_workflow_effect d t v w)
    as [(-> & -> & ->) | [(record & -> & -> & ->)
                         | (record & entry & -> & -> & ->)]].
  - repeat split; try reflexivity. lia.
  - repeat split; try reflexivity.
    + intros k Hk. now rewrite lookup_insert_ne by congruence.
    + rewrite dom_insert_L. set_solver.
    + now apply prefix_app_r.
    + rewrite length_app. cbn. lia.
  - repeat split.
    + intros k Hk. now rewrite lookup_insert_ne by congruence.
    + intros k Hk. now rewrite lookup_insert_ne by congruence.
    + rewrite dom_insert_L. set_solver.
    + rewrite dom_insert_L. set_solver.
    + now apply prefix_app_r.
    + rewrite length_app. cbn. lia.
Qed.

Lemma handler_preserves_store_witness :
  workflows_table
    (handler (Request (Some "book a meeting") None)
       (World {[ "older" := new_workflow (demo_world (NotJson "")) "X" ∅ "General"
                              "old text" false ]} ∅ [] None None
          (fun n => "id-" +:+ digit n) 0 (fun n => "t-" +:+ digit n) 0
          (fun _ => NotJson "I think this is a meeting"))).2 !! "older"
  = Some (new_workflow (demo_world (NotJson "")) "X" ∅ "General" "old text" false).
Proof.
  rewrite (proj1 (handler_preserves_store (Request (Some "book a meeting") None)
     (World {[ "older" := new_workflow (demo_world (NotJson "")) "X" ∅ "General"
                              "old text" false ]} ∅ [] None None
          (fun n => "id-" +:+ digit n) 0 (fun n => "t-" +:+ digit n) 0
          (fun _ => NotJson "I think this is a meeting"))) "older").
  - vm_compute. reflexivity.
  - vm_compute. discriminate.
Defined.

Lemma handler_ok_inv (event : request) (w : world) :
  statusCode (handler event w).1 = 200%Z ->
  exists t iv i e dm,
    event = Request (Some t) iv /\ t <> ""
    /\ intent (classification w t) = Some i
    /\ entities (classification w t) = Some e
    /\ domain (classification w t) = Some dm
    /\ workflows_fault w = None /\ history_fault w = None
    /\ handler event w
       = (Response 200 get_cors_headers
            (Success (classification w t)
               (new_started (new_workflow w i e dm t (default false iv)))
               (next_workflow_id w)),
          world_after w (new_workflow w i e dm t (default false iv))).
Proof.
  destruct (String.eqb (default "" (text event)) "") eqn:E.
  { apply String.eqb_eq in E. rewrite (handler_no_text _ _ E). discriminate. }
  apply String.eqb_neq in E.
  destruct (event_text _ E) as (t & iv & -> & Hne).
  rewrite (handler_run _ _ _ Hne).
  destruct (first_missing (classification w t)) as [key|] eqn:Hm.
  { rewrite (execute_workflow_missing _ _ _ _ _ Hm). discriminate. }
  destruct (present_fields _ Hm) as (i & e & dm & Hi & He & Hd).
  rewrite (execute_workflow_present _ t (default false iv) w i e dm Hi He Hd).
  cbv zeta.
  destruct (workflows_fault w) eqn:Hwf; [discriminate|].
  destruct (history_fault w) eqn:Hhf; [discriminate|].
  intros _. exists t, iv, i, e, dm. repeat split; assumption.
Qed.

(** X12. When a request is answered with status 200, the workflowId of
    the answer is the key under which the new workflow item is stored;
    the item carries the text of the request, its voice flag (false
    when the request has none) and the intent, entities and domain of
    the classification given in the answer; and the history table holds
    an entry for that workflow whose message names its title. *)
Theorem handler_success_round_trip (event : request) (w : world) :
  statusCode (handler event w).1 = 200%Z ->
  exists t res record entry,
    text event = Some t
    /\ body (handler event w).1
       = Success (classification w t) res (next_workflow_id w)
    /\ workflowId res = next_workflow_id w
    /\ message res
       = "Workflow " +:+ wf_title record
         +:+ " has been initiated and is now in progress."
    /\ workflows_table (handler event w).2 !! next_workflow_id w = Some record
    /\ wf_id record = next_workflow_id w
    /\ wf_originalText record = t
    /\ wf_isVoice record = default false (isVoice event)
    /\ intent (classification w t) = Some (wf_intent record)
    /\ entities (classification w t) = Some (wf_entities record)
    /\ domain (classification w t) = Some (wf_domain record)
    /\ workflow_history_table (handler event w).2 !! next_history_id w
       = Some entry
    /\ h_workflowId entry = next_workflow_id w
    /\ h_message entry = "Workflow initiated: " +:+ wf_title record.
Proof.
  intros H.
  apply handler_ok_inv in H
    as (t & iv & i & e & dm & -> & _ & Hi & He & Hd & _ & _ & ->).
  exists t, (new_started (new_workflow w i e dm t (default false iv))),
    (new_workflow w i e dm t (default false iv)),
    (new_history w (new_workflow w i e dm t (default false iv))).
  cbn [fst snd text isVoice body].
  repeat split; try assumption; apply lookup_insert_eq.
Qed.

Lemma handler_success_round_trip_witness :
  exists record,
    workflows_table
      (handler (Request (Some "file a bug") (Some true))
         (demo_world (NotJson "Sure! Here is the JSON"))).2 !! "id-0"
    = Some record
    /\ wf_originalText record = "file a bug"
    /\ wf_isVoice record = true.
Proof.
  destruct (handler_success_round_trip (Request (Some "file a bug") (Some true))
              (demo_world (NotJson "Sure! Here is the JSON")))
    as (t & res & record & entry & Ht & _ & _ & _ & Hlk & _ & Htext & Hv & _).
  - vm_compute. reflexivity.
  - exists record. injection Ht as <-.
    split; [exact Hlk | split; [exact Htext | exact Hv]].
Defined.

(** X13. Nothing is deduplicated.  When a request is answered with
    status 200 and the same request, sent again, is answered with
    status 200 again (whatever the model answers and the tables do the
    second time), a second workflow has been created: provided the two
    ids drawn for the workflows differ, both items are in the table
    afterwards, each with the text of the request, and four writes
    were made in all. *)
Theorem repeated_request_creates_again (event : request) (w : world)
    (model : string -> model_reply) (wf hf : option string) :
  statusCode (handler event w).1 = 200%Z ->
  statusCode (handler event (later_request model wf hf (handler event w).2)).1
  = 200%Z ->
  uuid_source w (uuid_count w) <> uuid_source w (S (S (uuid_count w))) ->
  exists d1 res1 id1 d2 res2 id2 record1 record2,
    body (handler event w).1 = Success d1 res1 id1
    /\ body (handler event (later_request model wf hf (handler event w).2)).1
       = Success d2 res2 id2
    /\ id1 <> id2
    /\ workflows_table
         (handler event (later_request model wf hf (handler event w).2)).2 !! id1
       = Some record1
    /\ workflows_table
         (handler event (later_request model wf hf (handler event w).2)).2 !! id2
       = Some record2
    /\ text event = Some (wf_originalText record1)
    /\ text event = Some (wf_originalText record2)
    /\ length (writes
         (handler event (later_request model wf hf (handler event w).2)).2)
       = length (writes w) + 4.
Proof.
  intros H H2 Hfresh.
  apply handler_ok_inv in H
    as (t & iv & i & e & dm & -> & Hne & Hi & He & Hd & Hwf & Hhf & Hh).
  rewrite Hh in *. cbn [fst snd body] in *.
  set (item1 := new_workflow w i e dm t (default false iv)) in *.
  set (w2 := later_request model wf hf (world_after w item1)) in *.
  apply handler_ok_inv in H2
    as (t' & iv' & i2 & e2 & dm2 & Hev & _ & _ & _ & _ & _ & _ & Hh2).
  injection Hev as <- <-.
  rewrite Hh2. cbn [fst snd body].
  set (item2 := new_workflow w2 i2 e2 dm2 t (default false iv)).
  exists (classification w t), (new_started item1), (next_workflow_id w),
    (classification w2 t), (new_started item2), (next_workflow_id w2),
    item1, item2.
  assert (Hid : next_workflow_id w <> next_workflow_id w2) by exact Hfresh.
  split; [reflexivity | split; [reflexivity | split; [exact Hid|]]].
  split; [|split; [|split; [|split]]].
  - cbn [workflows_table write_history set_clock_count set_uuid_count
         write_workflow world_after later_request w2].
    change (wf_id item2) with (next_workflow_id w2).
    rewrite lookup_insert_ne by (intros E; apply Hid; now rewrite <- E).
    apply lookup_insert_eq.
  - cbn [workflows_table write_history set_clock_count set_uuid_count
         write_workflow world_after].
    apply lookup_insert_eq.
  - reflexivity.
  - reflexivity.
  - cbn [writes write_history set_clock_count set_uuid_count
         write_workflow world_after later_request w2].
    rewrite !length_app. cbn [length]. lia.
Qed.

Lemma repeated_request_creates_again_witness :
  exists id1 id2 : string,
    id1 <> id2
    /\ is_Some (workflows_table
         (handler (Request (Some "schedule a call") None)
            (later_request (fun _ => NotJson "Here you go") None None
               (handler (Request (Some "schedule a call") None)
                  (demo_world (CallRaises "timeout"))).2)).2 !! id1)
    /\ is_Some (workflows_table
         (handler (Request (Some "schedule a call") None)
            (later_request (fun _ => NotJson "Here you go") None None
               (handler (Request (Some "schedule a call") None)
                  (demo_world (CallRaises "timeout"))).2)).2 !! id2).
Proof.
  destruct (repeated_request_creates_again
              (Request (Some "schedule a call") None)
              (demo_world (CallRaises "timeout"))
              (fun _ => NotJson "Here you go") None None)
    as (d1 & res1 & id1 & d2 & res2 & id2 & record1 & record2
        & _ & _ & Hne & H1 & H2 & _).
  - vm_compute. reflexivity.
  - vm_compute. reflexivity.
  - vm_compute. discriminate.
  - exists id1, id2. split; [exact Hne | split; eauto].
Defined.

(** * The workflow executor *)

(** ** Sorting and slicing *)

Lemma leb_refl (s : string) : String.leb s s = true.
Proof.
  pose proof (@reflexivity _ String.le _ s) as H. unfold String.le in H.
  now apply Is_true_true in H.
Qed.

Lemma leb_trans (a b c : string) :
  String.leb a b = true -> String.leb b c = true -> String.leb a c = true.
Proof.
  intros H1 H2. apply Is_true_true.
  apply (@transitivity _ String.le _ a b c); unfold String.le;
    now apply Is_true_true.
Qed.

Lemma leb_false_flip (a b : string) :
  String.leb a b = false -> String.leb b a = true.
Proof.
  intros H. destruct (String.leb_total a b) as [H' | H']; congruence.
Qed.

Lemma insert_desc_perm {A} (key : A -> string) (x : A) (l : list A) :
  Permutation (Executor.insert_desc key x l) (x :: l).
Proof.
  induction l as [|y l IH]; cbn [Executor.insert_desc]; [reflexivity|].
  destruct (String.leb (key y) (key x)); [reflexivity|].
  rewrite IH. apply perm_swap.
Qed.

Lemma sort_desc_perm {A} (key : A -> string) (l : list A) :
  Permutation (Executor.sort_desc key l) l.
Proof.
  induction l as [|x l IH]; [reflexivity|].
  unfold Executor.sort_desc in *. cbn [foldr].
  rewrite insert_desc_perm. now rewrite IH.
Qed.

Lemma insert_desc_sorted {A} (key : A -> string) (x : A) (l : list A) :
  newest_first key l -> newest_first key (Executor.insert_desc key x l).
Proof.
  unfold newest_first.
  induction l as [|y l IH]; intros Hs; cbn [Executor.insert_desc].
  - repeat constructor.
  - apply StronglySorted_inv in Hs as [Hl Hy].
    destruct (String.leb (key y) (key x)) eqn:E.
    + constructor; [now constructor|].
      constructor; [exact E|].
      eapply Forall_impl; [exact Hy|]. cbn. intros z Hz.
      now apply (leb_trans _ (key y)).
    + constructor; [now apply IH|].
      apply leb_false_flip in E.
      rewrite insert_desc_perm. now constructor.
Qed.

Lemma sort_desc_sorted {A} (key : A -> string) (l : list A) :
  newest_first key (Executor.sort_desc key l).
Proof.
  induction l as [|x l IH]; [constructor|].
  unfold Executor.sort_desc in *. cbn [foldr]. now apply insert_desc_sorted.
Qed.

Lemma insert_desc_stable {A} (key : A -> string) (k : string) (x : A)
    (l : list A) :
  filter (fun y => key y = k) (Executor.insert_desc key x l)
  = filter (fun y => key y = k) (x :: l).
Proof.
  induction l as [|y l IH]; cbn [Executor.insert_desc]; [reflexivity|].
  destruct (String.leb (key y) (key x)) eqn:E; [reflexivity|].
  assert (Hne : key y <> key x).
  { intros Heq. rewrite Heq, leb_refl in E. discriminate. }
  rewrite !filter_cons in *.
  destruct (decide (key y = k)) as [Hy|Hy], (decide (key x = k)) as [Hx|Hx];
    try congruence; now rewrite IH.
Qed.

Lemma sort_desc_stable {A} (key : A -> string) (k : string) (l : list A) :
  filter (fun y => key y = k) (Executor.sort_desc key l)
  = filter (fun y => key y = k) l.
Proof.
  induction l as [|x l IH]; [reflexivity|].
  unfold Executor.sort_desc in *. cbn [foldr].
  rewrite insert_desc_stable, !filter_cons, IH. reflexivity.
Qed.

Lemma newest_first_app {A} (key : A -> string) (l1 l2 : list A) :
  newest_first key (l1 ++ l2) ->
  forall x y, In x l1 -> In y l2 -> String.leb (key y) (key x) = true.
Proof.
  unfold newest_first. induction l1 as [|a l1 IH]; cbn [app]; intros Hs x y Hx Hy.
  - destruct Hx.
  - apply StronglySorted_inv in Hs as [Hs Ha].
    destruct Hx as [<- | Hx].
    + rewrite Forall_forall in Ha. apply Ha.
      apply list_elem_of_In, in_app_iff. now right.
    + now apply IH.
Qed.

(** X16. The recent activity is the history page sorted by timestamp,
    newest first, entries with equal timestamps in the order of the
    page, cut at the limit: the answer and the entries left out make up
    the page, and no entry left out is newer than an entry given.  A
    limit from 0 up gives that many entries, or all when there are
    fewer; a negative limit leaves out that many of the oldest. *)
Theorem recent_activity_newest_first (e : Executor.env)
    (page : list history_item) (limit : Z) :
  Executor.history_scan e = Executor.ScanItems page ->
  exists given left_out,
    Executor.get_recent_activity e limit
    = Executor.Response 200 Executor.get_cors_headers (Executor.Activity given)
    /\ Permutation (given ++ left_out) page
    /\ newest_first h_timestamp (given ++ left_out)
    /\ (forall ts, filter (fun y => h_timestamp y = ts) (given ++ left_out)
                   = filter (fun y => h_timestamp y = ts) page)
    /\ (forall x y, In x given -> In y left_out ->
          String.leb (h_timestamp y) (h_timestamp x) = true)
    /\ ((0 <= limit)%Z -> length given = Nat.min (Z.to_nat limit) (length page))
    /\ ((limit < 0)%Z -> length given = length page - Z.to_nat (- limit)).
Proof.
  intros Hscan. unfold Executor.get_recent_activity. rewrite Hscan. cbv zeta.
  set (sorted := Executor.sort_desc h_timestamp page).
  assert (Hlen : length sorted = length page).
  { apply Permutation_length, sort_desc_perm. }
  unfold Executor.slice_to.
  set (n := if (limit <? 0)%Z
            then Z.to_nat (Z.max 0 (Z.of_nat (length sorted) + limit))
            else Z.to_nat limit).
  exists (take n sorted), (drop n sorted).
  assert (Hn : (if (limit <? 0)%Z
                then take (Z.to_nat (Z.max 0 (Z.of_nat (length sorted) + limit))) sorted
                else take (Z.to_nat limit) sorted) = take n sorted).
  { unfold n. now destruct (limit <? 0)%Z. }
  rewrite Hn, take_drop.
  split; [reflexivity|].
  split; [apply sort_desc_perm|].
  split; [apply sort_desc_sorted|].
  split; [intros ts; apply sort_desc_stable|].
  split.
  { apply newest_first_app. rewrite take_drop. apply sort_desc_sorted. }
  split.
  - intros Hpos. rewrite length_take, Hlen. unfold n.
    destruct (limit <? 0)%Z eqn:E; [apply Z.ltb_lt in E; lia | reflexivity].
  - intros Hneg. rewrite length_take, Hlen. unfold n.
    destruct (limit <? 0)%Z eqn:E; [|apply Z.ltb_ge in E; lia].
    rewrite Hlen. lia.
Qed.

Lemma recent_activity_newest_first_witness :
  exists given,
    Executor.get_recent_activity
      (demo_env [] [demo_entry "a" "09:00"; demo_entry "b" "11:00";
                    demo_entry "c" "10:00"]) (-1)
    = Executor.Response 200 Executor.get_cors_headers (Executor.Activity given)
    /\ length given = 3 - Z.to_nat (- (-1)).
Proof.
  destruct (recent_activity_newest_first
              (demo_env [] [demo_entry "a" "09:00"; demo_entry "b" "11:00";
                            demo_entry "c" "10:00"])
              [demo_entry "a" "09:00"; demo_entry "b" "11:00";
               demo_entry "c" "10:00"] (-1) eq_refl)
    as (given & left_out & Hr & _ & _ & _ & _ & _ & Hneg).
  exists given. split; [exact Hr|]. apply Hneg. lia.
Defined.

(** ** Listing the active workflows *)

(** X17. The active listing has exactly the workflows of the page
    whose status is pending or in_progress, newest first by creation
    time, workflows created at the same time in the order of the page.
    A workflow as [execute_workflow] writes it (status in_progress) is
    listed whenever it is on the page. *)
Theorem active_workflows_listing (e : Executor.env) (page : list workflow_item) :
  Executor.workflows_scan e = Executor.ScanItems page ->
  exists listed,
    Executor.get_active_workflows e
    = Executor.Response 200 Executor.get_cors_headers (Executor.Workflows listed)
    /\ (forall item,
          In item listed <->
          In item page
          /\ (wf_status item = "pending" \/ wf_status item = "in_progress"))
    /\ length listed <= length page
    /\ newest_first wf_createdAt listed
    /\ (forall ts, filter (fun y => wf_createdAt y = ts) listed
                   = filter (fun y => wf_createdAt y = ts)
                       (filter (fun y => Executor.is_active y = true) page))
    /\ (forall w i en dm t v,
          In (new_workflow w i en dm t v) page ->
          In (new_workflow w i en dm t v) listed).
Proof.
  intros Hscan. unfold Executor.get_active_workflows. rewrite Hscan. cbv zeta.
  set (active := filter (fun item => Executor.is_active item = true) page).
  exists (Executor.sort_desc wf_createdAt active).
  assert (Hmem : forall item,
            In item (Executor.sort_desc wf_createdAt active) <->
            In item page
            /\ (wf_status item = "pending" \/ wf_status item = "in_progress")).
  { intros item. rewrite <- !list_elem_of_In.
    rewrite (sort_desc_perm wf_createdAt active).
    unfold active. rewrite list_elem_of_filter. unfold Executor.is_active.
    rewrite orb_true_iff, !String.eqb_eq. tauto. }
  split; [reflexivity|].
  split; [exact Hmem|].
  split.
  { rewrite (Permutation_length (sort_desc_perm wf_createdAt active)).
    apply length_filter. }
  split; [apply sort_desc_sorted|].
  split; [intros ts; apply sort_desc_stable|].
  intros w i en dm t v Hin. apply Hmem. split; [exact Hin | now right].
Qed.

Lemma active_workflows_listing_witness :
  exists listed,
    Executor.get_active_workflows
      (demo_env [demo_item "1" "completed" "2024-05-01T08:00" false;
                 demo_item "2" "in_progress" "2024-05-01T09:00" true;
                 demo_item "3" "pending" "2024-05-01T10:00" false] [])
    = Executor.Response 200 Executor.get_cors_headers (Executor.Workflows listed)
    /\ length listed <= 3.
Proof.
  destruct (active_workflows_listing
              (demo_env [demo_item "1" "completed" "2024-05-01T08:00" false;
                         demo_item "2" "in_progress" "2024-05-01T09:00" true;
                         demo_item "3" "pending" "2024-05-01T10:00" false] [])
              [demo_item "1" "completed" "2024-05-01T08:00" false;
               demo_item "2" "in_progress" "2024-05-01T09:00" true;
               demo_item "3" "pending" "2024-05-01T10:00" false] eq_refl)
    as (listed & Hr & _ & Hlen & _).
  exists listed. split; [exact Hr | exact Hlen].
Defined.

(** ** Statistics *)

Lemma filter_disjoint_length {A} (P Q : A -> Prop)
    `{!forall x, Decision (P x)} `{!forall x, Decision (Q x)} (l : list A) :
  (forall x, P x -> Q x -> False) ->
  length (filter P l) + length (filter Q l) <= length l.
Proof.
  intros Hdis. induction l as [|x l IH]; [reflexivity|].
  rewrite !filter_cons.
  destruct (decide (P x)) as [HP|HP], (decide (Q x)) as [HQ|HQ];
    cbn [length]; try lia.
  destruct (Hdis x HP HQ).
Qed.

(** X18. In the statistics, the workflows counted for today are those
    of the page whose creation time is not empty, not before the start
    of today and before the start of tomorrow.  The counts are
    consistent: completed plus in progress is at most the total of
    today, voice commands are at most the total, and the total is at
    most the size of the page.  A failing scan gives status 500. *)
Theorem stats_are_consistent (e : Executor.env) :
  (forall page,
     Executor.workflows_scan e = Executor.ScanItems page ->
     exists completed in_progress voice total,
       Executor.get_stats e
       = Executor.Response 200 Executor.get_cors_headers
           (Executor.Stats completed in_progress voice total)
       /\ completed + in_progress <= total
       /\ voice <= total
       /\ total <= length page
       /\ total
          = length (filter (fun item =>
                      wf_createdAt item <> ""
                      /\ String.leb (Executor.today_start e) (wf_createdAt item) = true
                      /\ String.ltb (wf_createdAt item) (Executor.tomorrow_start e) = true)
                    page))
  /\ (forall msg,
     Executor.workflows_scan e = Executor.ScanRaises msg ->
     Executor.statusCode (Executor.get_stats e) = 500%Z).
Proof.
  split.
  - intros page Hscan. unfold Executor.get_stats. rewrite Hscan. cbv zeta.
    set (today := filter (fun workflow => Executor.created_today e workflow = true) page).
    eexists _, _, _, _. split; [reflexivity|].
    split; [|split; [|split]].
    + apply filter_disjoint_length. intros x H1 H2. congruence.
    + apply length_filter.
    + apply length_filter.
    + unfold today. f_equal. apply list_filter_iff. intros item.
      unfold Executor.created_today. cbv zeta.
      rewrite !andb_true_iff, negb_true_iff, String.eqb_neq. tauto.
  - intros msg Hscan. unfold Executor.get_stats. now rewrite Hscan.
Qed.

Lemma stats_are_consistent_witness :
  Executor.get_stats
    (demo_env [demo_item "1" "completed" "2024-05-01T08:00" false;
               demo_item "2" "in_progress" "2024-05-01T09:00" true;
               demo_item "3" "in_progress" "2024-05-02" true;
               demo_item "4" "in_progress" "2024-04-30T23:59" true;
               demo_item "5" "failed" "2024-05-01" false] [])
  = Executor.Response 200 Executor.get_cors_headers (Executor.Stats 1 1 1 3).
Proof.
  destruct (proj1 (stats_are_consistent
              (demo_env [demo_item "1" "completed" "2024-05-01T08:00" false;
                         demo_item "2" "in_progress" "2024-05-01T09:00" true;
                         demo_item "3" "in_progress" "2024-05-02" true;
                         demo_item "4" "in_progress" "2024-04-30T23:59" true;
                         demo_item "5" "failed" "2024-05-01" false] []))
              _ eq_refl)
    as (c & i & v & t & Hr & _).
  rewrite Hr. vm_compute in Hr. injection Hr as <- <- <- <-. reflexivity.
Defined.

(** ** Routing and fetching by id *)

Lemma last_segment_after_slash (before id : string) :
  any_char (Str.is_char "/") id = false ->
  Executor.last_segment (before +:+ "/" +:+ id) = id.
Proof.
  intros Hid. induction before as [|c before IH].
  - rewrite app_nil, app_cons, app_nil. cbn [Executor.last_segment].
    rewrite Hid. reflexivity.
  - rewrite app_cons. cbn [Executor.last_segment].
    rewrite any_char_app, app_cons, app_nil. cbn [any_char].
    change (Str.is_char "/" "/") with true.
    rewrite orb_true_l, orb_true_r. exact IH.
Qed.

Lemma contains_app_r (p a b : string) :
  Str.contains p b = true -> Str.contains p (a +:+ b) = true.
Proof.
  rewrite !contains_occurs. intros (x & y & ->).
  exists (a +:+ x), y. now rewrite append_assoc.
Qed.

Lemma contains_here (p b : string) : Str.contains p (p +:+ b) = true.
Proof. apply contains_occurs. now exists "", b. Qed.

(** X14. How the executor routes.  Any method but GET gets 404
    "Endpoint not found", whatever the path; a request without a method
    counts as GET.  A GET whose path contains "/workflows/active" gets
    the active listing, so a workflow whose id starts with "active"
    cannot be fetched under "/workflows/<id>".  Any other GET whose
    path ends in "/workflows/<id>", the id without a slash, fetches the
    workflow with that id. *)
Theorem executor_routing (e : Executor.env) :
  (forall method path query,
     method <> "GET" ->
     Executor.handler e (Executor.Event (Some method) path query)
     = Executor.Response 404 Executor.get_cors_headers
         (Executor.Error "Endpoint not found"))
  /\ (forall path query,
     Executor.handler e (Executor.Event None path query)
     = Executor.handler e (Executor.Event (Some "GET") path query))
  /\ (forall before rest query,
     Executor.handler e
       (Executor.Event (Some "GET")
          (Some (before +:+ "/workflows/" +:+ "active" +:+ rest)) query)
     = Executor.get_active_workflows e)
  /\ (forall before id query,
     any_char (Str.is_char "/") id = false ->
     Str.contains "/workflows/active" (before +:+ "/workflows/" +:+ id) = false ->
     Executor.handler e
       (Executor.Event (Some "GET") (Some (before +:+ "/workflows/" +:+ id)) query)
     = Executor.get_workflow_by_id e id).
Proof.
  split; [|split; [|split]].
  - intros method path query Hne. unfold Executor.handler. cbv zeta.
    cbn [Executor.httpMethod default from_option id].
    rewrite (eqb_other _ _ Hne), !andb_false_r. reflexivity.
  - reflexivity.
  - intros before rest query. unfold Executor.handler. cbv zeta.
    cbn [Executor.httpMethod Executor.path default from_option id].
    assert (H : Str.contains "/workflows/active"
                  (before +:+ "/workflows/" +:+ "active" +:+ rest) = true).
    { apply contains_app_r.
      change ("/workflows/" +:+ "active" +:+ rest)
        with ("/workflows/active" +:+ rest).
      apply contains_here. }
    rewrite H. reflexivity.
  - intros before wid query Hid Hnot. unfold Executor.handler. cbv zeta.
    cbn [Executor.httpMethod Executor.path default from_option id].
    rewrite Hnot. cbn [andb].
    rewrite (contains_app_r "/workflows/" before _ (contains_here _ _)).
    change (String.eqb "GET" "GET") with true. cbn [andb].
    change ("/workflows/" +:+ wid) with ("/workflows" +:+ "/" +:+ wid).
    rewrite <- append_assoc. now rewrite last_segment_after_slash.
Qed.

Lemma executor_routing_witness :
  Executor.handler (demo_env [demo_item "42" "pending" "2024-05-01" false] [])
    (Executor.Event (Some "DELETE") (Some "/workflows/42") None)
  = Executor.Response 404 Executor.get_cors_headers
      (Executor.Error "Endpoint not found")
  /\ Executor.handler (demo_env [demo_item "42" "pending" "2024-05-01" false] [])
       (GET ("/prod" +:+ "/workflows/" +:+ "42"))
     = Executor.Response 200 Executor.get_cors_headers
         (Executor.Workflow (demo_item "42" "pending" "2024-05-01" false)).
Proof.
  destruct (executor_routing
              (demo_env [demo_item "42" "pending" "2024-05-01" false] []))
    as [Hmethod [_ [_ Hid]]].
  split.
  - apply Hmethod. discriminate.
  - unfold GET. rewrite (Hid "/prod" "42" None); vm_compute; reflexivity.
Defined.

(** X15. A workflow can be read back.  After a request to the intent
    handler was answered with status 200, fetching the workflowId of
    the answer from a store that holds the table as the handler left
    it gives status 200 with the item written: in progress, progress 0,
    and with the text of the request.  An id the table does not hold
    gives 404, and a store that refuses gives 500. *)
Theorem created_workflow_can_be_fetched (event : request) (w : world)
    (e : Executor.env) :
  Executor.workflows e = workflows_table (handler event w).2 ->
  (statusCode (handler event w).1 = 200%Z ->
   Executor.get_item_fault e (next_workflow_id w) = None ->
   exists record,
     Executor.get_workflow_by_id e (next_workflow_id w)
     = Executor.Response 200 Executor.get_cors_headers (Executor.Workflow record)
     /\ wf_id record = next_workflow_id w
     /\ text event = Some (wf_originalText record)
     /\ wf_status record = "in_progress"
     /\ wf_progress record = 0%Z)
  /\ (forall id,
     Executor.get_item_fault e id = None ->
     workflows_table (handler event w).2 !! id = None ->
     Executor.get_workflow_by_id e id
     = Executor.Response 404 Executor.get_cors_headers
         (Executor.Error "Workflow not found"))
  /\ (forall id msg,
     Executor.get_item_fault e id = Some msg ->
     Executor.statusCode (Executor.get_workflow_by_id e id) = 500%Z).
Proof.
  intros Htable. split; [|split].
  - intros H Hok.
    apply handler_ok_inv in H
      as (t & iv & i & en & dm & -> & _ & _ & _ & _ & _ & _ & Hh).
    rewrite Hh in Htable. cbn [snd] in Htable.
    exists (new_workflow w i en dm t (default false iv)).
    unfold Executor.get_workflow_by_id. rewrite Hok, Htable.
    unfold world_after.
    cbn [workflows_table write_history set_clock_count set_uuid_count
         write_workflow].
    change (wf_id (new_workflow w i en dm t (default false iv)))
      with (next_workflow_id w).
    rewrite lookup_insert_eq. repeat split.
  - intros id Hok Hnone. unfold Executor.get_workflow_by_id.
    now rewrite Hok, Htable, Hnone.
  - intros id msg Hf. unfold Executor.get_workflow_by_id. now rewrite Hf.
Qed.

Lemma created_workflow_can_be_fetched_witness :
  exists record,
    Executor.get_workflow_by_id
      (Executor.Env
         (workflows_table
            (handler (Request (Some "my laptop has a problem") None)
               (demo_world (CallRaises "down"))).2)
         (fun _ => None) (Executor.ScanItems []) (Executor.ScanItems [])
         "2024-05-01" "2024-05-02" (fun _ => None)) "id-0"
    = Executor.Response 200 Executor.get_cors_headers (Executor.Workflow record)
    /\ wf_status record = "in_progress".
Proof.
  destruct (proj1 (created_workflow_can_be_fetched
              (Request (Some "my laptop has a problem") None)
              (demo_world (CallRaises "down"))
              (Executor.Env
                 (workflows_table
                    (handler (Request (Some "my laptop has a problem") None)
                       (demo_world (CallRaises "down"))).2)
                 (fun _ => None) (Executor.ScanItems []) (Executor.ScanItems [])
                 "2024-05-01" "2024-05-02" (fun _ => None))
              eq_refl))
    as (record & Hr & _ & _ & Hs & _).
  - vm_compute. reflexivity.
  - reflexivity.
  - exists record. split; [exact Hr | exact Hs].
Defined.



(** * Speech to text *)

(** ** The polling loop *)

Lemma poll_waits (e : Transcribe.env) (job audio : string) (k : nat) :
  forall (m attempt : nat),
    (forall n, n < k -> still_running (Transcribe.get_job e (attempt + n)) = true) ->
    Transcribe.poll e job audio (k + m) attempt
    = ((Transcribe.poll e job audio m (attempt + k)).1,
       waiting job k ++ (Transcribe.poll e job audio m (attempt + k)).2).
Proof.
  induction k as [|k IH]; intros m attempt Hrun.
  - cbn [Nat.add waiting app]. rewrite Nat.add_0_r.
    now destruct (Transcribe.poll e job audio m attempt).
  - cbn [Nat.add Transcribe.poll waiting app].
    pose proof (Hrun 0 ltac:(lia)) as H0. rewrite Nat.add_0_r in H0.
    destruct (Transcribe.get_job e attempt) as [msg|status uri reason];
      [discriminate|].
    cbn [still_running] in H0. apply andb_true_iff in H0 as [Hc Hf].
    apply negb_true_iff in Hc, Hf. rewrite Hc, Hf.
    rewrite (IH m (S attempt)).
    + replace (S attempt + k) with (attempt + S k) by lia. reflexivity.
    + intros n Hn. replace (S attempt + n) with (attempt + S n) by lia.
      apply Hrun. lia.
Qed.

Lemma count_calls_cons (p : Transcribe.call -> bool) (c : Transcribe.call)
    (l : list Transcribe.call) :
  count_calls p (c :: l) = (if p c then 1 else 0) + count_calls p l.
Proof.
  unfold count_calls. rewrite filter_cons.
  destruct (decide (p c = true)) as [H|H].
  - now rewrite H.
  - destruct (p c); [congruence | reflexivity].
Qed.

Lemma count_calls_nil (p : Transcribe.call -> bool) : count_calls p [] = 0.
Proof. reflexivity. Qed.

Lemma count_calls_app (p : Transcribe.call -> bool)
    (l1 l2 : list Transcribe.call) :
  count_calls p (l1 ++ l2) = count_calls p l1 + count_calls p l2.
Proof. unfold count_calls. now rewrite filter_app, length_app. Qed.

Ltac count_simpl :=
  rewrite ?count_calls_cons, ?count_calls_app, ?count_calls_cons,
    ?count_calls_nil;
  cbn [is_get_job is_sleep is_delete].

Lemma count_waiting (job : string) (k : nat) :
  count_calls is_get_job (waiting job k) = k
  /\ count_calls is_sleep (waiting job k) = k
  /\ count_calls is_delete (waiting job k) = 0.
Proof.
  induction k as [|k (IH1 & IH2 & IH3)]; [repeat split|].
  cbn [waiting]. count_simpl. rewrite IH1, IH2, IH3. repeat split.
Qed.

Lemma transcript_calls (e : Transcribe.env) (uri : string) :
  count_calls is_get_job (Transcribe.get_transcript_from_s3 e uri).2 = 0
  /\ count_calls is_sleep (Transcribe.get_transcript_from_s3 e uri).2 = 0.
Proof.
  unfold Transcribe.get_transcript_from_s3. cbv zeta.
  destruct (Transcribe.split_once _) as [bucket [key|]]; cbn [fst snd];
    [|now split].
  destruct (Transcribe.read_transcript e bucket key); [|now split].
  destruct (Transcribe.delete_object_fault e bucket key); now split.
Qed.

Lemma poll_bound (e : Transcribe.env) (job audio : string) (remaining : nat) :
  forall attempt,
    count_calls is_get_job (Transcribe.poll e job audio remaining attempt).2
      <= remaining
    /\ count_calls is_sleep (Transcribe.poll e job audio remaining attempt).2
      <= remaining.
Proof.
  induction remaining as [|remaining IH]; intros attempt;
    cbn [Transcribe.poll]; [split; reflexivity|].
  destruct (Transcribe.get_job e attempt) as [msg|status uri reason];
    [cbn [snd]; count_simpl; split; lia|].
  destruct (String.eqb status "COMPLETED").
  - destruct uri as [uri|]; [|cbn [snd]; count_simpl; split; lia].
    destruct (transcript_calls e uri) as [Hg Hs].
    destruct (Transcribe.get_transcript_from_s3 e uri) as [text calls].
    cbn [snd] in Hg, Hs.
    destruct (Transcribe.delete_object_fault e _ audio); cbn [snd];
      count_simpl; rewrite Hg, Hs; split; lia.
  - destruct (String.eqb status "FAILED"); [cbn [snd]; count_simpl; split; lia|].
    destruct (IH (S attempt)) as [Hg Hs].
    destruct (Transcribe.poll e job audio remaining (S attempt)) as [r calls].
    cbn [snd] in *. count_simpl. split; lia.
Qed.

Lemma handler_started (e : Transcribe.env) (event : Transcribe.request) :
  job_started e event ->
  exists audio_bytes,
    Transcribe.handler e event
    = ((Transcribe.poll e (job_name_of e) (audio_key_of e event) 30 0).1,
       Transcribe.PutObject (Transcribe.AUDIO_BUCKET e) (audio_key_of e event)
         audio_bytes ("audio/" +:+ default "wav" (Transcribe.format event))
       :: Transcribe.StartJob (job_name_of e)
            ("s3://" +:+ Transcribe.AUDIO_BUCKET e +:+ "/" +:+ audio_key_of e event)
            (default "wav" (Transcribe.format event)) (Transcribe.AUDIO_BUCKET e)
            ("transcribe-output/" +:+ job_name_of e +:+ ".json")
       :: (Transcribe.poll e (job_name_of e) (audio_key_of e event) 30 0).2).
Proof.
  intros (Hne & (audio_bytes & Hdec) & Hput & Hstart).
  exists audio_bytes. unfold Transcribe.handler. cbv zeta.
  rewrite (eqb_other _ _ Hne), Hdec, Hput, Hstart.
  fold (audio_key_of e event). fold (job_name_of e).
  now destruct (Transcribe.poll e (job_name_of e) (audio_key_of e event) 30 0).
Qed.

Lemma waiting_rounds (job : string) (k : nat) :
  waiting job k
  = concat (replicate k [Transcribe.GetJob job; Transcribe.Sleep 2]).
Proof.
  induction k as [|k IH]; [reflexivity|].
  cbn [waiting replicate concat app]. now rewrite IH.
Qed.

Lemma transcript_never_sleeps (e : Transcribe.env) (uri : string) (seconds : Z) :
  ~ In (Transcribe.Sleep seconds) (Transcribe.get_transcript_from_s3 e uri).2.
Proof.
  unfold Transcribe.get_transcript_from_s3. cbv zeta.
  destruct (Transcribe.split_once _) as [bucket [key|]]; cbn [fst snd];
    [|intros []].
  destruct (Transcribe.read_transcript e bucket key);
    [destruct (Transcribe.delete_object_fault e bucket key)|];
    cbn [snd In]; intuition discriminate.
Qed.

Lemma poll_sleeps_two (e : Transcribe.env) (job audio : string)
    (remaining : nat) :
  forall attempt seconds,
    In (Transcribe.Sleep seconds)
       (Transcribe.poll e job audio remaining attempt).2 ->
    seconds = 2%Z.
Proof.
  induction remaining as [|remaining IH]; intros attempt seconds;
    cbn [Transcribe.poll]; [intros []|].
  destruct (Transcribe.get_job e attempt) as [msg|status uri reason].
  { cbn [snd In]. intros [H | []]. discriminate H. }
  destruct (String.eqb status "COMPLETED").
  - destruct uri as [uri|].
    + pose proof (transcript_never_sleeps e uri seconds) as Hno.
      destruct (Transcribe.get_transcript_from_s3 e uri) as [text calls].
      cbn [snd] in Hno.
      destruct (Transcribe.delete_object_fault e _ audio); cbn [snd In];
        rewrite in_app_iff; cbn [In];
        intros [H | [H | [H | []]]]; try discriminate H; contradiction.
    + cbn [snd In]. intros [H | []]. discriminate H.
  - destruct (String.eqb status "FAILED").
    { cbn [snd In]. intros [H | []]. discriminate H. }
    specialize (IH (S attempt) seconds).
    destruct (Transcribe.poll e job audio remaining (S attempt)) as [r calls].
    cbn [snd In] in *. intros [H | [H | H]]; [discriminate H | | now apply IH].
    now injection H as <-.
Qed.

(** X20. The job is polled at most thirty times, and the handler never
    sleeps for another time than two seconds.  For a request that got
    its job started: thirty polls that all find the job running make
    the handler poll and then sleep two seconds thirty times over and
    answer with status 408 "Transcription timeout"; a job found FAILED
    at poll number k+1, after k rounds of polling and sleeping two
    seconds, ends in status 500 with the failure reason ("Unknown
    error" when none is given) after exactly k+1 polls. *)
Theorem transcribe_polling (e : Transcribe.env) (event : Transcribe.request) :
  count_calls is_get_job (Transcribe.handler e event).2 <= 30
  /\ (job_started e event ->
      (forall n, n < 30 -> still_running (Transcribe.get_job e n) = true) ->
      (Transcribe.handler e event).1
      = Transcribe.Response 408 Transcribe.get_cors_headers
          (Transcribe.Failure "Transcription timeout")
      /\ count_calls is_get_job (Transcribe.handler e event).2 = 30
      /\ count_calls is_sleep (Transcribe.handler e event).2 = 30)
  /\ (forall k uri reason,
      job_started e event -> k < 30 ->
      (forall n, n < k -> still_running (Transcribe.get_job e n) = true) ->
      Transcribe.get_job e k = Transcribe.Job "FAILED" uri reason ->
      (Transcribe.handler e event).1
      = Transcribe.Response 500 Transcribe.get_cors_headers
          (Transcribe.Failure
             ("Transcription failed: " +:+ default "Unknown error" reason))
      /\ count_calls is_get_job (Transcribe.handler e event).2 = S k
      /\ count_calls is_sleep (Transcribe.handler e event).2 = k)
  /\ (forall seconds,
      In (Transcribe.Sleep seconds) (Transcribe.handler e event).2 ->
      seconds = 2%Z)
  /\ (job_started e event ->
      (forall n, n < 30 -> still_running (Transcribe.get_job e n) = true) ->
      exists upload start,
        (Transcribe.handler e event).2
        = upload :: start
          :: concat (replicate 30 [Transcribe.GetJob (job_name_of e);
                                   Transcribe.Sleep 2]))
  /\ (forall k uri reason,
      job_started e event -> k < 30 ->
      (forall n, n < k -> still_running (Transcribe.get_job e n) = true) ->
      Transcribe.get_job e k = Transcribe.Job "FAILED" uri reason ->
      exists upload start,
        (Transcribe.handler e event).2
        = upload :: start
          :: concat (replicate k [Transcribe.GetJob (job_name_of e);
                                  Transcribe.Sleep 2])
          ++ [Transcribe.GetJob (job_name_of e)]).
Proof.
  split; [|split; [|split; [|split; [|split]]]].
  - unfold Transcribe.handler. cbv zeta.
    destruct (String.eqb _ ""); [cbn [snd]; count_simpl; lia|].
    destruct (Transcribe.b64decode e _) as [msg|audio_bytes];
      [cbn [snd]; count_simpl; lia|].
    destruct (Transcribe.put_object_fault e); [cbn [snd]; count_simpl; lia|].
    destruct (Transcribe.start_job_fault e); [cbn [snd]; count_simpl; lia|].
    match goal with
    | |- context [Transcribe.poll e ?j ?a 30 0] =>
        destruct (poll_bound e j a 30 0) as [Hg _];
        destruct (Transcribe.poll e j a 30 0) as [r calls]
    end.
    cbn [snd] in *. count_simpl. exact Hg.
  - intros Hstarted Hrun.
    destruct (handler_started e event Hstarted) as (audio_bytes & ->).
    rewrite (poll_waits e _ _ 30 0 0) by exact Hrun.
    cbn [fst snd Transcribe.poll]. rewrite app_nil_r.
    destruct (count_waiting (job_name_of e) 30) as (Hg & Hs & _).
    split; [reflexivity|]. count_simpl. now split.
  - intros k uri reason Hstarted Hk Hrun Hfail.
    destruct (handler_started e event Hstarted) as (audio_bytes & ->).
    replace 30 with (k + S (29 - k)) by lia.
    rewrite (poll_waits e _ _ k (S (29 - k)) 0) by exact Hrun.
    cbn [fst snd Transcribe.poll Nat.add]. rewrite Hfail.
    change (String.eqb "FAILED" "COMPLETED") with false.
    change (String.eqb "FAILED" "FAILED") with true. cbv iota. cbn [fst snd].
    destruct (count_waiting (job_name_of e) k) as (Hg & Hs & _).
    split; [reflexivity|].
    count_simpl. rewrite Hg, Hs. split; lia.
  - intros seconds. unfold Transcribe.handler. cbv zeta.
    destruct (String.eqb _ ""); [intros []|].
    destruct (Transcribe.b64decode e _) as [msg|audio_bytes]; [intros []|].
    destruct (Transcribe.put_object_fault e).
    { cbn [snd In]. intros [H | []]. discriminate H. }
    destruct (Transcribe.start_job_fault e).
    { cbn [snd In]. intros [H | [H | []]]; discriminate H. }
    match goal with
    | |- context [Transcribe.poll e ?j ?a 30 0] =>
        pose proof (poll_sleeps_two e j a 30 0 seconds) as Hp;
        destruct (Transcribe.poll e j a 30 0) as [r calls]
    end.
    cbn [snd In] in *. intros [H | [H | H]]; try discriminate H.
    now apply Hp.
  - intros Hstarted Hrun.
    destruct (handler_started e event Hstarted) as (audio_bytes & ->).
    rewrite (poll_waits e _ _ 30 0 0) by exact Hrun.
    cbn [fst snd Transcribe.poll]. rewrite app_nil_r, waiting_rounds.
    now eexists _, _.
  - intros k uri reason Hstarted Hk Hrun Hfail.
    destruct (handler_started e event Hstarted) as (audio_bytes & ->).
    replace 30 with (k + S (29 - k)) by lia.
    rewrite (poll_waits e _ _ k (S (29 - k)) 0) by exact Hrun.
    cbn [fst snd Transcribe.poll Nat.add]. rewrite Hfail.
    change (String.eqb "FAILED" "COMPLETED") with false.
    change (String.eqb "FAILED" "FAILED") with true. cbv iota. cbn [fst snd].
    rewrite waiting_rounds. now eexists _, _.
Qed.

Lemma transcribe_polling_witness :
  (Transcribe.handler
     (demo_transcribe 30 (Transcribe.Job "COMPLETED" (Some "s3://audio/out/t.json") None))
     (Transcribe.Request (Some "UklGRg==") None)).1
  = Transcribe.Response 408 Transcribe.get_cors_headers
      (Transcribe.Failure "Transcription timeout")
  /\ (Transcribe.handler
        (demo_transcribe 3 (Transcribe.Job "FAILED" None None))
        (Transcribe.Request (Some "UklGRg==") (Some "mp3"))).1
     = Transcribe.Response 500 Transcribe.get_cors_headers
         (Transcribe.Failure ("Transcription failed: " +:+ "Unknown error"))
  /\ exists upload start,
       (Transcribe.handler
          (demo_transcribe 3 (Transcribe.Job "FAILED" None None))
          (Transcribe.Request (Some "UklGRg==") (Some "mp3"))).2
       = upload :: start
         :: concat (replicate 3 [Transcribe.GetJob
                                   (job_name_of (demo_transcribe 3
                                      (Transcribe.Job "FAILED" None None)));
                                 Transcribe.Sleep 2])
         ++ [Transcribe.GetJob
               (job_name_of (demo_transcribe 3
                  (Transcribe.Job "FAILED" None None)))].
Proof.
  assert (Hstarted : forall rounds final fmt,
            job_started (demo_transcribe rounds final)
              (Transcribe.Request (Some "UklGRg==") fmt)).
  { intros rounds final fmt.
    split; [discriminate | split; [now exists "UklGRg==" | split; reflexivity]]. }
  assert (Hrun : forall rounds final n, n < rounds ->
            still_running (Transcribe.get_job (demo_transcribe rounds final) n)
            = true).
  { intros rounds final n Hn. cbn [demo_transcribe Transcribe.get_job].
    apply Nat.ltb_lt in Hn. now rewrite Hn. }
  split; [|split].
  - apply (proj1 (proj2 (transcribe_polling
             (demo_transcribe 30
                (Transcribe.Job "COMPLETED" (Some "s3://audio/out/t.json") None))
             (Transcribe.Request (Some "UklGRg==") None)))).
    + apply Hstarted.
    + apply Hrun.
  - apply (proj1 (proj2 (proj2 (transcribe_polling
             (demo_transcribe 3 (Transcribe.Job "FAILED" None None))
             (Transcribe.Request (Some "UklGRg==") (Some "mp3"))))) 3 None None).
    + apply Hstarted.
    + lia.
    + apply Hrun.
    + reflexivity.
  - apply (proj2 (proj2 (proj2 (proj2 (proj2 (transcribe_polling
             (demo_transcribe 3 (Transcribe.Job "FAILED" None None))
             (Transcribe.Request (Some "UklGRg==") (Some "mp3"))))))) 3 None None).
    + apply Hstarted.
    + lia.
    + apply Hrun.
    + reflexivity.
Defined.

(** ** What is cleaned up *)

Lemma poll_gave_up (e : Transcribe.env) (job audio : string) (remaining : nat) :
  forall attempt,
    gave_up (Transcribe.poll e job audio remaining attempt).1 ->
    count_calls is_delete (Transcribe.poll e job audio remaining attempt).2 = 0.
Proof.
  induction remaining as [|remaining IH]; intros attempt;
    cbn [Transcribe.poll]; [reflexivity|].
  destruct (Transcribe.get_job e attempt) as [msg|status uri reason].
  { cbn [fst snd]. intros [H | [why H]]; [discriminate H|].
    cbn in H. discriminate H. }
  destruct (String.eqb status "COMPLETED").
  - destruct uri as [uri|].
    { destruct (Transcribe.get_transcript_from_s3 e uri) as [text calls].
      destruct (Transcribe.delete_object_fault e _ audio); cbn [fst snd];
        intros [H | [why H]]; try discriminate H; cbn in H; discriminate H. }
    cbn [fst snd]. intros [H | [why H]]; [discriminate H|].
    cbn in H. discriminate H.
  - destruct (String.eqb status "FAILED").
    { intros _. cbn [snd]. now count_simpl. }
    specialize (IH (S attempt)).
    destruct (Transcribe.poll e job audio remaining (S attempt)) as [r calls].
    cbn [fst snd] in *. intros H. count_simpl. now rewrite (IH H).
Qed.

Lemma poll_delete_completed (e : Transcribe.env) (job audio : string)
    (remaining : nat) :
  forall attempt c,
    In c (Transcribe.poll e job audio remaining attempt).2 ->
    is_delete c = true ->
    exists n uri reason,
      attempt <= n < attempt + remaining
      /\ Transcribe.get_job e n = Transcribe.Job "COMPLETED" (Some uri) reason.
Proof.
  induction remaining as [|remaining IH]; intros attempt c;
    cbn [Transcribe.poll]; [intros []|].
  destruct (Transcribe.get_job e attempt) as [msg|status uri reason] eqn:Hjob.
  { cbn [snd In]. intros [<- | []]. discriminate. }
  destruct (String.eqb status "COMPLETED") eqn:Hc.
  - apply String.eqb_eq in Hc. subst status.
    destruct uri as [uri|].
    + intros _ _. exists attempt, uri, reason. split; [lia | exact Hjob].
    + cbn [snd In]. intros [<- | []]. discriminate.
  - destruct (String.eqb status "FAILED").
    { cbn [snd In]. intros [<- | []]. discriminate. }
    specialize (IH (S attempt) c).
    destruct (Transcribe.poll e job audio remaining (S attempt)) as [r calls].
    cbn [snd In] in *. intros [<- | [<- | H]] Hd; try discriminate Hd.
    destruct (IH H Hd) as (n & u & f & Hn & Hj).
    exists n, u, f. split; [lia | exact Hj].
Qed.

(** X21. Nothing is deleted from S3 unless a poll reported the job
    COMPLETED.  So when the handler gives a job up, on the timeout or
    on a FAILED job, the audio it uploaded stays in the bucket: the
    upload is among its calls and no delete is. *)
Theorem transcribe_cleanup (e : Transcribe.env) (event : Transcribe.request) :
  (forall bucket key,
     In (Transcribe.DeleteObject bucket key) (Transcribe.handler e event).2 ->
     exists n uri reason,
       n < 30
       /\ Transcribe.get_job e n = Transcribe.Job "COMPLETED" (Some uri) reason)
  /\ (job_started e event ->
      gave_up (Transcribe.handler e event).1 ->
      (exists audio_bytes content_type,
         In (Transcribe.PutObject (Transcribe.AUDIO_BUCKET e)
               (audio_key_of e event) audio_bytes content_type)
            (Transcribe.handler e event).2)
      /\ count_calls is_delete (Transcribe.handler e event).2 = 0).
Proof.
  split.
  - intros bucket key. unfold Transcribe.handler. cbv zeta.
    destruct (String.eqb _ ""); [intros []|].
    destruct (Transcribe.b64decode e _) as [msg|audio_bytes]; [intros []|].
    destruct (Transcribe.put_object_fault e).
    { cbn [snd In]. intros [H | []]. discriminate H. }
    destruct (Transcribe.start_job_fault e).
    { cbn [snd In]. intros [H | [H | []]]; discriminate H. }
    match goal with
    | |- context [Transcribe.poll e ?j ?a 30 0] =>
        pose proof (poll_delete_completed e j a 30 0
                      (Transcribe.DeleteObject bucket key)) as Hp;
        destruct (Transcribe.poll e j a 30 0) as [r calls]
    end.
    cbn [snd In] in *. intros [H | [H | H]]; try discriminate H.
    destruct (Hp H eq_refl) as (n & uri & reason & Hn & Hj).
    exists n, uri, reason. split; [lia | exact Hj].
  - intros Hstarted.
    destruct (handler_started e event Hstarted) as (audio_bytes & ->).
    cbn [fst snd]. intros Hgave. split.
    + eexists _, _. now left.
    + count_simpl. now rewrite (poll_gave_up _ _ _ _ _ Hgave).
Qed.

Lemma transcribe_cleanup_witness :
  count_calls is_delete
    (Transcribe.handler (demo_transcribe 2 (Transcribe.Job "FAILED" None (Some "bad audio")))
       (Transcribe.Request (Some "UklGRg==") None)).2 = 0.
Proof.
  apply (proj2 (transcribe_cleanup
           (demo_transcribe 2 (Transcribe.Job "FAILED" None (Some "bad audio")))
           (Transcribe.Request (Some "UklGRg==") None))).
  - split; [discriminate | split; [now exists "UklGRg==" | split; reflexivity]].
  - right. exists "bad audio". vm_compute. reflexivity.
Defined.

(** ** Fetching the transcript *)






(** * Text to speech *)

Lemma polly_voice (e : Polly.env) (event : Polly.request) :
  (if existsb (String.eqb (default "Joanna" (Polly.voiceId event)))
        (Polly.get_available_voices e).1
   then default "Joanna" (Polly.voiceId event) else "Joanna")
  = chosen_voice e event.
Proof.
  unfold chosen_voice, available_voices, Polly.get_available_voices.
  fold common_voices.
  destruct (Polly.voiceId event) as [requested|]; cbn [default from_option id].
  - destruct (Polly.describe_voices e); reflexivity.
  - destruct (existsb _ _); reflexivity.
Qed.

(** X23. The voice spoken with is the requested one when the list of
    available voices has it, and Joanna otherwise, also when Joanna is
    not in the list or no voice is requested.  The list is what Polly
    reports, or eight common voices when Polly cannot be asked.  Every
    request with a text asks Polly for the voices first and then for
    speech in the chosen voice with the neural engine, and an answer
    with status 200 names that voice. *)
Theorem polly_voice_choice (e : Polly.env) (event : Polly.request) :
  default "" (Polly.text event) <> "" ->
  (exists later,
     (Polly.handler e event).2
     = Polly.DescribeVoices "en-US"
       :: Polly.SynthesizeSpeech (default "" (Polly.text event))
            (default "mp3" (Polly.outputFormat event))
            (chosen_voice e event) "neural"
       :: later)
  /\ (forall url data fmt voice spoken,
        Polly.body_of (Polly.handler e event).1
        = Polly.Speech url data fmt voice spoken ->
        voice = chosen_voice e event
        /\ (In voice (available_voices e) \/ voice = "Joanna")).
Proof.
  intros Hne. unfold Polly.handler. cbv zeta. rewrite (eqb_other _ _ Hne).
  pose proof (polly_voice e event) as Hv.
  assert (Hcalls : (Polly.get_available_voices e).2 = [Polly.DescribeVoices "en-US"]).
  { unfold Polly.get_available_voices. now destruct (Polly.describe_voices e). }
  destruct (Polly.get_available_voices e) as [valid calls]. cbn [fst snd] in *.
  subst calls. rewrite Hv.
  assert (Hin : In (chosen_voice e event) (available_voices e)
                \/ chosen_voice e event = "Joanna").
  { unfold chosen_voice. destruct (Polly.voiceId event) as [requested|];
      [|now right].
    destruct (existsb (String.eqb requested) (available_voices e)) eqn:E;
      [left | now right].
    now apply existsb_eqb_In. }
  destruct (Polly.synthesize_speech e _ _ _) as [msg|audio].
  { split; [now eexists | intros ? ? ? ? ? H; discriminate H]. }
  destruct (Polly.put_object_fault e).
  { split; [now eexists | intros ? ? ? ? ? H; discriminate H]. }
  destruct (Polly.generate_presigned_url e _ _) as [msg|url].
  { split; [now eexists | intros ? ? ? ? ? H; discriminate H]. }
  split; [now eexists|].
  intros ? ? ? ? ? H. cbn [fst Polly.body_of] in H. injection H as _ _ _ <- _.
  now split.
Qed.

Lemma polly_voice_choice_witness :
  exists later,
    (Polly.handler (demo_polly (inl "AccessDenied"))
       (Polly.Request (Some "Good morning") (Some "Brian") None)).2
    = Polly.DescribeVoices "en-US"
      :: Polly.SynthesizeSpeech "Good morning" "mp3" "Joanna" "neural" :: later.
Proof.
  destruct (proj1 (polly_voice_choice (demo_polly (inl "AccessDenied"))
              (Polly.Request (Some "Good morning") (Some "Brian") None)
              ltac:(discriminate)))
    as (later & H).
  exists later. exact H.
Defined.


